(** * RAGrank: the evaluation orchestrator and its result object

    A shallow embedding of [ragrank/evaluation/base.py] (the function
    [evaluate]), [ragrank/evaluation/outputs.py] (the class [EvalResult])
    and [ragrank/exceptions.py], followed by the properties of the
    evaluation contract.

    Python values are modelled as follows.
    - [float] is an IEEE-754 binary64 value ([spec_float]); subtraction and
      comparisons are those of the standard.
    - An exception is a value of [PyException]; a computation that may raise
      returns a [Result].
    - The wall clock and the logger are the only ambient state [evaluate]
      touches; they live in a [World] that is threaded explicitly.
    - [evaluate] takes arguments of its declared types and includes what its
      decorator does to them; [evaluate_call] takes any objects and includes
      the decorator's refusal of the others.
    - A Python [dict] is an insertion-ordered association list with unique
      keys ([PyDict]); a pandas frame is a row count with ordered, named
      columns ([DataFrame]). *)

From Stdlib Require Import String Ascii DecimalString.
From Stdlib Require Import Bool Arith PeanoNat ZArith Lia List.
From Stdlib Require Import Floats.SpecFloat.
Import ListNotations.
Local Open Scope string_scope.
Local Open Scope list_scope.

Set Implicit Arguments.

(** ** Floats *)

Definition float : Type := spec_float.

(** binary64: 53 bits of precision, exponents below 1024. *)
Definition float_sub (x y : float) : float := SFsub 53 1024 x y.

Definition float_zero : float := S754_zero false.

(** [x > y] and [x <= y] on floats; both are false when an operand is NaN. *)
Definition float_gt (x y : float) : bool := SFltb y x.

(** ** Exceptions *)

(** One line of a pydantic validation report. *)
Record ErrorDetail : Type := {
  err_type : string;
  err_loc : list string;
  err_msg : string
}.

Inductive PyException : Type :=
| ValidationError (errors : list ErrorDetail)
| ValueError (msg : string)
| IndexError (msg : string)
| AttributeError (msg : string)
| RagRankError (msg : string)
| EvaluationError (message : string)
| OtherError (msg : string).

(** [exceptions.py]: the default message of [EvaluationError]. *)
Definition EvaluationError_default : PyException :=
  EvaluationError "Error during evaluation.".

(** [EvaluationError] derives from [RagRankError]. *)
Definition is_RagRankError (e : PyException) : bool :=
  match e with
  | RagRankError _ | EvaluationError _ => true
  | _ => false
  end.

Inductive Result (A : Type) : Type :=
| Ok (a : A)
| Raise (e : PyException).

Arguments Ok {A} a.
Arguments Raise {A} e.

Definition rbind {A B} (r : Result A) (k : A -> Result B) : Result B :=
  match r with
  | Ok a => k a
  | Raise e => Raise e
  end.

Declare Scope result_scope.
Delimit Scope result_scope with result.
Notation "'let?' x ':=' c 'in' k" := (rbind c (fun x => k))
  (at level 10, x pattern, c at level 100, k at level 200) : result_scope.
Local Open Scope result_scope.

(** ** The ambient world: wall clock and log *)

Record World : Type := {
  clock : nat -> float;   (* the successive readings of [time()] *)
  ticks : nat;            (* how many readings were taken so far *)
  log : list string       (* what [logger.info] received, oldest first *)
}.

(** A computation that reads or changes the world and may raise. *)
Definition M (A : Type) : Type := World -> Result A * World.

Definition ret {A} (a : A) : M A := fun w => (Ok a, w).

Definition bind {A B} (c : M A) (k : A -> M B) : M B :=
  fun w =>
    match c w with
    | (Ok a, w') => k a w'
    | (Raise e, w') => (Raise e, w')
    end.

Definition lift {A} (r : Result A) : M A := fun w => (r, w).

Declare Scope world_scope.
Delimit Scope world_scope with world.
Notation "'do' x '<-' c ';' k" := (bind c (fun x => k))
  (at level 10, x pattern, c at level 100, k at level 200) : world_scope.

(** [time.time()] *)
Definition time : M float :=
  fun w => (Ok (clock w (ticks w)),
            {| clock := clock w; ticks := S (ticks w); log := log w |}).

(** [logger.info(s)] *)
Definition logger_info (s : string) : M unit :=
  fun w => (Ok tt,
            {| clock := clock w; ticks := ticks w; log := log w ++ [s] |}).

(** ** Python sequences *)

(** [range(n)] *)
Definition range (n : nat) : list nat := seq 0 n.

(** [xs[i]] for a non-negative index. *)
Definition getitem {A} (xs : list A) (i : nat) : Result A :=
  match nth_error xs i with
  | Some x => Ok x
  | None => Raise (IndexError "list index out of range")
  end.

(** [[f(x) for x in xs]]: left to right, the first exception aborts. *)
Fixpoint list_comp {A B} (f : A -> Result B) (xs : list A) : Result (list B) :=
  match xs with
  | [] => Ok []
  | x :: xs' =>
      let? y := f x in
      let? ys := list_comp f xs' in
      Ok (y :: ys)
  end.

(** [for x in xs: body(x)] with a body that only checks. *)
Fixpoint for_each {A} (body : A -> Result unit) (xs : list A) : Result unit :=
  match xs with
  | [] => Ok tt
  | x :: xs' => let? _ := body x in for_each body xs'
  end.

(** [for x in xs: acc = body(acc, x)] *)
Fixpoint for_fold {A S} (body : S -> A -> Result S) (xs : list A) (acc : S)
  : Result S :=
  match xs with
  | [] => Ok acc
  | x :: xs' => let? acc' := body acc x in for_fold body xs' acc'
  end.

(** ** Python dictionaries with string keys *)

Definition PyDict (V : Type) : Type := list (string * V).

(** [d[k] = v]: an existing key keeps its position and takes the new value,
    a new key goes last. *)
Fixpoint dict_set {V} (k : string) (v : V) (d : PyDict V) : PyDict V :=
  match d with
  | [] => [(k, v)]
  | (k', v') :: d' =>
      if String.eqb k k' then (k', v) :: d' else (k', v') :: dict_set k v d'
  end.

Fixpoint dict_get {V} (k : string) (d : PyDict V) : option V :=
  match d with
  | [] => None
  | (k', v') :: d' => if String.eqb k k' then Some v' else dict_get k d'
  end.

Definition dict_keys {V} (d : PyDict V) : list string := map fst d.

(** [{key(x): value(x) for x in xs}]: the entries are computed and inserted
    left to right. *)
Definition dict_comp {A V} (f : A -> Result (string * V)) (xs : list A)
  : Result (PyDict V) :=
  for_fold
    (fun acc x => let? kv := f x in Ok (dict_set (fst kv) (snd kv) acc))
    xs [].

(** ** Records, datasets, metrics *)

Record DataNode : Type := {
  question : string;
  context : list string;
  response : string
}.

(** A cell of a pandas frame. *)
Inductive Cell : Type :=
| CStr (s : string)
| CStrList (l : list string)
| CFloat (f : float).

(** A pandas frame: the length of its index and its columns in order. *)
Record DataFrame : Type := {
  nrows : nat;
  columns : PyDict (list Cell)
}.

Definition ncols (df : DataFrame) : nat := length (columns df).
Definition column_names (df : DataFrame) : list string := dict_keys (columns df).

(** [str(n)] for a non-negative integer. *)
Definition str_of_nat (n : nat) : string :=
  NilZero.string_of_uint (Nat.to_uint n).

(** [df[key] = value] for a list [value].  A frame whose index is empty takes
    the index of a non-empty [value] and fills its old columns with NaN;
    otherwise the lengths must agree. *)
Definition DataFrame_setitem (df : DataFrame) (key : string) (value : list Cell)
  : Result DataFrame :=
  if Nat.eqb (nrows df) 0 && negb (Nat.eqb (length value) 0) then
    Ok {| nrows := length value;
          columns :=
            dict_set key value
              (map (fun c => (fst c, repeat (CFloat S754_nan) (length value)))
                 (columns df)) |}
  else if Nat.eqb (length value) (nrows df) then
    Ok {| nrows := nrows df; columns := dict_set key value (columns df) |}
  else
    Raise (ValueError ("Length of values (" ++ str_of_nat (length value)
                       ++ ") does not match length of index ("
                       ++ str_of_nat (nrows df) ++ ")")%string).

Module Dataset.

(** Modelled from the spec: the class [Dataset] of [ragrank.dataset] is not
    among the sources.  The spec describes it as an ordered sequence of
    records whose length is well defined, iterable in order with progress
    reporting, and convertible to a table with one row per record and one
    column per field. *)
Definition t : Type := list DataNode.

(** Modelled from the spec: [len(dataset)], missing with [Dataset]. *)
Definition len (ds : t) : nat := length ds.

(** Modelled from the spec: [Dataset.with_progress], missing with [Dataset];
    progress reporting is a pass-through that changes neither the order nor
    the values of the iteration. *)
Definition with_progress (ds : t) (desc : string) : list DataNode := ds.

(** Modelled from the spec: [Dataset.to_dataframe], missing with [Dataset];
    rows are the records, columns the fields. *)
Definition to_dataframe (ds : t) : DataFrame :=
  {| nrows := length ds;
     columns := [ ("question", map (fun n => CStr (question n)) ds);
                  ("context", map (fun n => CStrList (context n)) ds);
                  ("response", map (fun n => CStr (response n)) ds) ] |}.

Definition fields : list string := ["question"; "context"; "response"].

End Dataset.

(** Modelled from the spec: [DataNode.to_dataset], missing with [DataNode];
    a single record is wrapped into a one-record dataset. *)
Definition to_dataset (n : DataNode) : Dataset.t := [n].

(** What a metric returns for one record: an object with a [score] field. *)
Record MetricResult : Type := { score : float }.

(** The scoring capability: a [name] and the method [score] of a metric
    ([metric_score] here, as [score] is also the field of its result), which
    takes one record and may raise. *)
Record BaseMetric : Type := {
  name : string;
  metric_score : DataNode -> Result MetricResult
}.

(** What [evaluate] receives as [data] once a raw mapping was converted. *)
Inductive Data : Type :=
| IsDataNode (n : DataNode)
| IsDataset (ds : Dataset.t).

(** The collaborators of the orchestrator that are outside the sources. *)
Class Collaborators : Type := {
  BaseLLM : Type;
  (* a raw Python [dict] *)
  RawMapping : Type;
  (* what pydantic reads a [dict] as when it validates it against
     [Dataset | DataNode | dict]: the dataset or the record it makes of a
     mapping that has their fields, or nothing when the mapping validates as
     neither and stays a [dict] *)
  validate_mapping : RawMapping -> option Data;
  (* pydantic's report on the argument of the given name when it is of none
     of its declared types *)
  argument_report : string -> list ErrorDetail;
  (* [ragrank.dataset.from_dict] *)
  from_dict : RawMapping -> Result Data;
  (* [ragrank.llm.default_llm] *)
  default_llm : M BaseLLM;
  (* [ragrank.metric.response_relevancy] *)
  response_relevancy : BaseMetric;
  (* Python's [repr] of a float and of a str *)
  float_repr : float -> string;
  str_repr : string -> string
}.

(** An argument as a caller passes it: a value of one of the declared types
    of the parameter, or any other object. *)
Inductive Passed (A : Type) : Type :=
| Declared (a : A)
| Other.

Arguments Declared {A} a.
Arguments Other {A}.

(** ** Python's [str] of a list of dictionaries *)

(** [", ".join(items)] *)
Fixpoint join_comma (items : list string) : string :=
  match items with
  | [] => EmptyString
  | [x] => x
  | x :: rest => (x ++ ", " ++ join_comma rest)%string
  end.

Section Evaluation.

Context {C : Collaborators}.

(** [repr] of a [dict] from str to float. *)
Definition dict_repr (d : PyDict float) : string :=
  ("{" ++ join_comma
            (map (fun kv => str_repr (fst kv) ++ ": " ++ float_repr (snd kv)) d)
       ++ "}")%string.

(** [str] of a list of such dictionaries. *)
Definition list_str (l : list (PyDict float)) : string :=
  ("[" ++ join_comma (map dict_repr l) ++ "]")%string.

(** ** [outputs.py]: the class [EvalResult] *)

Record EvalResult : Type := {
  llm : BaseLLM;
  metrics : list BaseMetric;
  dataset : Dataset.t;
  scores : list (list float);
  response_time : float
}.

Definition metrics_scores_message : string :=
  ("The number of metrics and number of scores is not equal. " ++
   String "010" "Ensure that each metric has a corresponding score.")%string.

Definition datapoints_scores_message : string :=
  ("The number of datapoints and scores are not balanced. " ++
   String "010" ("Ensure that each score list has the same " ++
                 "length as dataset."))%string.

(** [EvalResult.validator], the [model_validator(mode="after")]. *)
Definition validator (self : EvalResult) : Result EvalResult :=
  if negb (Nat.eqb (length (metrics self)) (length (scores self))) then
    Raise (ValueError metrics_scores_message)
  else
    let dataset_size := Dataset.len (dataset self) in
    let? _ :=
      for_each
        (fun score =>
           if negb (Nat.eqb (length score) dataset_size) then
             Raise (ValueError datapoints_scores_message)
           else Ok tt)
        (scores self) in
    Ok self.

(** The report pydantic makes of a [ValueError] raised by a validator. *)
Definition value_error_detail (msg : string) : ErrorDetail :=
  {| err_type := "value_error"; err_loc := [];
     err_msg := ("Value error, " ++ msg)%string |}.

(** The report pydantic makes of a failed [Field(gt=0)]. *)
Definition greater_than_detail (field : string) : ErrorDetail :=
  {| err_type := "greater_than"; err_loc := [field];
     err_msg := "Input should be greater than 0" |}.

(** [EvalResult(llm=..., metrics=..., dataset=..., response_time=...,
    scores=...)]: the field constraint [response_time: float = Field(gt=0)]
    is checked first; when it holds the object is built and handed to
    [validator], whose [ValueError] pydantic turns into a
    [ValidationError]. *)
Definition EvalResult_init (llm0 : BaseLLM) (metrics0 : list BaseMetric)
  (dataset0 : Dataset.t) (response_time0 : float) (scores0 : list (list float))
  : Result EvalResult :=
  if float_gt response_time0 float_zero then
    match validator {| llm := llm0; metrics := metrics0; dataset := dataset0;
                       scores := scores0; response_time := response_time0 |} with
    | Ok self => Ok self
    | Raise (ValueError msg) => Raise (ValidationError [value_error_detail msg])
    | Raise e => Raise e
    end
  else
    Raise (ValidationError [greater_than_detail "response_time"]).

(** [EvalResult.to_dataframe] *)
Definition to_dataframe (self : EvalResult) : Result DataFrame :=
  let df := Dataset.to_dataframe (dataset self) in
  for_fold
    (fun df i =>
       let? m := getitem (metrics self) i in
       let? s := getitem (scores self) i in
       DataFrame_setitem df (name m) (map CFloat s))
    (range (length (metrics self))) df.

(** The list [data] that [__repr__] builds. *)
Definition repr_data (self : EvalResult) : Result (list (PyDict float)) :=
  list_comp
    (fun i =>
       dict_comp
         (fun k =>
            let? m := getitem (metrics self) k in
            let? s := getitem (scores self) k in
            let? v := getitem s i in
            Ok (name m, v))
         (range (length (metrics self))))
    (range (Dataset.len (dataset self))).

(** [EvalResult.__repr__] *)
Definition __repr__ (self : EvalResult) : Result string :=
  let? data := repr_data self in
  Ok (list_str data).

(** [EvalResult.__str__] *)
Definition __str__ (self : EvalResult) : Result string :=
  __repr__ self.

(** ** [base.py]: the function [evaluate] *)

(** The argument [data: Dataset | DataNode | dict]. *)
Inductive DataArg : Type :=
| DataDict (d : RawMapping)
| DataOf (x : Data).

(** The argument [metrics: BaseMetric | List[BaseMetric] | None]. *)
Inductive MetricsArg : Type :=
| MetricsNone
| MetricsOne (m : BaseMetric)
| MetricsList (ms : list BaseMetric).

(** [@validate_call(validate_return=False)] on an argument [data] of one of
    the declared types: a dataset or a record passes as it is, a mapping that
    validates as a dataset or as a record is replaced by it, any other
    mapping stays a [dict]. *)
Definition validate_call_data (data : DataArg) : DataArg :=
  match data with
  | DataDict d =>
      match validate_mapping d with
      | Some x => DataOf x
      | None => DataDict d
      end
  | DataOf x => DataOf x
  end.

Local Open Scope world_scope.

(** [evaluate] on arguments of the declared types; [llm] and [metrics] are
    keyword arguments, which the decorator passes on as they are. *)
Definition evaluate (data : DataArg) (llm0 : option BaseLLM)
  (metrics0 : MetricsArg) : M EvalResult :=
  (* @validate_call(validate_return=False) *)
  let data0 := validate_call_data data in
  (* if isinstance(data, dict): data = from_dict(data) *)
  do data1 <- match data0 with
              | DataDict d => lift (from_dict d)
              | DataOf x => ret x
              end;
  (* if isinstance(data, DataNode): data = data.to_dataset() *)
  let data2 := match data1 with
               | IsDataNode n => to_dataset n
               | IsDataset ds => ds
               end in
  (* if llm is None: llm = default_llm() *)
  do llm1 <- match llm0 with
             | None => default_llm
             | Some l => ret l
             end;
  (* if metrics is None: metrics = [response_relevancy] *)
  (* if isinstance(metrics, BaseMetric): metrics = [metrics] *)
  let metrics1 := match metrics0 with
                  | MetricsNone => [response_relevancy]
                  | MetricsOne m => [m]
                  | MetricsList ms => ms
                  end in
  do dt <- time;
  do scores1 <-
    lift (list_comp
            (fun metric =>
               list_comp
                 (fun datanode =>
                    let? r := metric_score metric datanode in Ok (score r))
                 (Dataset.with_progress data2 "Evaluating"))
            metrics1);
  do _ <- logger_info ("Evaluation completed with "
                       ++ str_of_nat (length metrics1) ++ " metrics")%string;
  do t <- time;
  let delta := float_sub t dt in
  lift (EvalResult_init llm1 metrics1 data2 delta scores1).

(** The report of [@validate_call] on the three arguments: the lines for
    every argument that is of none of its declared types, in the order of
    the parameters. *)
Definition validate_call_report (data : Passed DataArg)
  (llm0 : Passed (option BaseLLM)) (metrics0 : Passed MetricsArg)
  : list ErrorDetail :=
  (match data with Other => argument_report "data" | Declared _ => [] end)
  ++ (match llm0 with Other => argument_report "llm" | Declared _ => [] end)
  ++ (match metrics0 with Other => argument_report "metrics" | Declared _ => [] end).

(** [evaluate] as it is called, with any objects: the decorator raises a
    [ValidationError] before the body runs unless every argument is of one of
    its declared types. *)
Definition evaluate_call (data : Passed DataArg)
  (llm0 : Passed (option BaseLLM)) (metrics0 : Passed MetricsArg)
  : M EvalResult :=
  match data, llm0, metrics0 with
  | Declared data', Declared llm', Declared metrics' =>
      evaluate data' llm' metrics'
  | _, _, _ =>
      lift (Raise (ValidationError (validate_call_report data llm0 metrics0)))
  end.

End Evaluation.

(** ** Vocabulary of the properties *)

(** The names of a metric list, in metric order. *)
Definition metric_names (ms : list BaseMetric) : list string := map name ms.

(** The keys of a dictionary filled with [names] in order: the first
    occurrence of every name, in order of first occurrence. *)
Fixpoint first_occurrences (seen : list string) (names : list string) : list string :=
  match names with
  | [] => []
  | n :: rest =>
      if existsb (String.eqb n) seen then first_occurrences seen rest
      else n :: first_occurrences (seen ++ [n]) rest
  end.

(** The dictionary [acc] after the entries [kvs] were stored in it, in
    order. *)
Definition dict_fill {V} (kvs : list (string * V)) (acc : PyDict V) : PyDict V :=
  fold_left (fun d kv => dict_set (fst kv) (snd kv) d) kvs acc.

(** The value of the last entry of [kvs] under key [k], if any. *)
Fixpoint assoc_last {V} (k : string) (kvs : list (string * V)) : option V :=
  match kvs with
  | [] => None
  | (k', v) :: rest =>
      match assoc_last k rest with
      | Some v' => Some v'
      | None => if String.eqb k k' then Some v else None
      end
  end.

(** The entries that record [j] contributes to the rendering: one per
    metric, in metric order, under the metric's name. *)
Definition row_entries `{Collaborators} (r : EvalResult) (j : nat)
  : list (string * float) :=
  map (fun p => (name (fst p), nth j (snd p) float_zero))
    (combine (metrics r) (scores r)).

(** The columns that the metrics contribute to the table: one per metric,
    in metric order, under the metric's name. *)
Definition metric_columns `{Collaborators} (r : EvalResult)
  : list (string * list Cell) :=
  map (fun p => (name (fst p), map CFloat (snd p)))
    (combine (metrics r) (scores r)).

(** How many distinct names a list holds. *)
Definition distinct_count (names : list string) : nat :=
  length (nodup string_dec names).

(** The position of the last metric called [n], if any. *)
Fixpoint last_named (n : string) (ms : list BaseMetric) : option nat :=
  match ms with
  | [] => None
  | m :: rest =>
      match last_named n rest with
      | Some i => Some (S i)
      | None => if String.eqb n (name m) then Some 0 else None
      end
  end.

(** [g] is the grid of the scores of [ms] on [ds]: row [i] belongs to metric
    [i], entry [j] of that row to record [j]. *)
Definition grid_of (ms : list BaseMetric) (ds : list DataNode)
  (g : list (list float)) : Prop :=
  length g = length ms /\
  forall i m, nth_error ms i = Some m ->
    exists row, nth_error g i = Some row /\ length row = length ds /\
      forall j d, nth_error ds j = Some d ->
        exists res, metric_score m d = Ok res /\ nth_error row j = Some (score res).

(** The count invariants of an [EvalResult]. *)
Definition counts_agree `{Collaborators} (r : EvalResult) : Prop :=
  length (metrics r) = length (scores r) /\
  forall i s, nth_error (scores r) i = Some s -> length s = Dataset.len (dataset r).

(** The dataset [evaluate] works on once a single record was wrapped. *)
Definition resolved_dataset (x : Data) : Dataset.t :=
  match x with
  | IsDataNode n => to_dataset n
  | IsDataset ds => ds
  end.

(** The metric list [evaluate] works on once its argument was normalized. *)
Definition normalized_metrics `{Collaborators} (ma : MetricsArg) : list BaseMetric :=
  match ma with
  | MetricsNone => [response_relevancy]
  | MetricsOne m => [m]
  | MetricsList ms => ms
  end.

(** The dataset argument once a raw mapping was converted: by the
    decorator when the mapping validates as a dataset or a record, by
    [from_dict] otherwise. *)
Definition converted `{Collaborators} (data : DataArg) : Result Data :=
  match data with
  | DataDict d =>
      match validate_mapping d with
      | Some x => Ok x
      | None => from_dict d
      end
  | DataOf x => Ok x
  end.

(** The scoring loop of [evaluate], on its own. *)
Definition scoring_loop (ms : list BaseMetric) (ds : Dataset.t)
  : Result (list (list float)) :=
  list_comp
    (fun metric =>
       list_comp
         (fun datanode => let? r := metric_score metric datanode in Ok (score r))
         (Dataset.with_progress ds "Evaluating"))
    ms.

(** The elapsed time [evaluate] measures when its first clock reading is
    reading number [k]. *)
Definition elapsed (w : World) (k : nat) : float :=
  float_sub (clock w (S k)) (clock w k).

(** Whether [needle] occurs in [hay]. *)
Fixpoint contains (needle hay : string) : bool :=
  if String.prefix needle hay then true
  else match hay with
       | EmptyString => false
       | String _ hay' => contains needle hay'
       end.

Definition is_digit (c : ascii) : bool :=
  let n := nat_of_ascii c in Nat.leb 48 n && Nat.leb n 57.

Fixpoint has_digit (s : string) : bool :=
  match s with
  | EmptyString => false
  | String c s' => is_digit c || has_digit s'
  end.

(** ** Concrete collaborators, metrics and data *)

Module Samples.

(** 1.0, 2.0 and 0.5 in binary64. *)
Definition one : float := S754_finite false 4503599627370496 (-52).
Definition two : float := S754_finite false 4503599627370496 (-51).
Definition half : float := S754_finite false 4503599627370496 (-53).

(** A raw mapping: keys to a text or a sequence of texts. *)
Inductive Value : Type :=
| VStr (s : string)
| VList (l : list string).

(** Modelled from the spec: [from_dict] is not among the sources.  A raw
    mapping with keys [question] (text), [context] (sequence of text) and
    [response] (text) becomes a single record, then a one-record dataset; a
    mapping with a missing or malformed key fails at this boundary.  The properties below hold for any
    [from_dict]; this one serves the concrete instances. *)
Definition from_dict_sample (d : PyDict Value) : Result Data :=
  match dict_get "question" d, dict_get "context" d, dict_get "response" d with
  | Some (VStr q), Some (VList c), Some (VStr a) =>
      Ok (IsDataset [{| question := q; context := c; response := a |}])
  | _, _, _ => Raise (ValidationError
                        [{| err_type := "missing"; err_loc := [];
                            err_msg := "Field required" |}])
  end.

(** A mapping with a text [question], a sequence [context] and a text
    [response] validates as a record; no other mapping validates as a record
    or as a dataset. *)
Definition validate_mapping_sample (d : PyDict Value) : option Data :=
  match dict_get "question" d, dict_get "context" d, dict_get "response" d with
  | Some (VStr q), Some (VList c), Some (VStr a) =>
      Some (IsDataNode {| question := q; context := c; response := a |})
  | _, _, _ => None
  end.

(** A stand-in for Python's [repr] of a str, exact on a text without
    backslashes or control characters that does not hold both kinds of quote:
    single quotes, unless the text holds an apostrophe. *)
Definition str_repr_sample (s : string) : string :=
  let apostrophe := String (ascii_of_nat 39) EmptyString in
  let double_quote := String (ascii_of_nat 34) EmptyString in
  if contains apostrophe s && negb (contains double_quote s)
  then (double_quote ++ s ++ double_quote)%string
  else (apostrophe ++ s ++ apostrophe)%string.

(** One line per argument of no declared type. *)
Definition argument_report_sample (arg : string) : list ErrorDetail :=
  [{| err_type := "union"; err_loc := [arg];
      err_msg := "Input is of none of the declared types" |}].

(** Scores 1.0 when the response is the context's first text, else 0.5. *)
Definition echo_metric (metric_name : string) : BaseMetric :=
  {| name := metric_name;
     metric_score := fun d =>
       match context d with
       | c :: _ => if String.eqb c (response d)
                   then Ok {| score := one |} else Ok {| score := half |}
       | [] => Ok {| score := half |}
       end |}.

(** Always scores the given value. *)
Definition const_metric (metric_name : string) (v : float) : BaseMetric :=
  {| name := metric_name; metric_score := fun _ => Ok {| score := v |} |}.

(** A stand-in for Python's [repr] of a float: exact on the three sample
    values, on the zeros, the infinities and NaN. *)
Definition float_repr_sample (x : float) : string :=
  match x with
  | S754_finite false 4503599627370496 (Zneg 52) => "1.0"
  | S754_finite false 4503599627370496 (Zneg 51) => "2.0"
  | S754_finite false 4503599627370496 (Zneg 53) => "0.5"
  | S754_zero false => "0.0"
  | S754_zero true => "-0.0"
  | S754_infinity false => "inf"
  | S754_infinity true => "-inf"
  | S754_nan => "nan"
  | _ => "?"
  end.

#[export] Instance collaborators : Collaborators := {|
  BaseLLM := string;
  RawMapping := PyDict Value;
  validate_mapping := validate_mapping_sample;
  argument_report := argument_report_sample;
  from_dict := from_dict_sample;
  default_llm := ret "default";
  response_relevancy := echo_metric "response_relevancy";
  float_repr := float_repr_sample;
  str_repr := str_repr_sample
|}.

(** A language-model client, known by its name. *)
Definition gpt : @BaseLLM collaborators := "gpt".

Definition biden : DataNode :=
  {| question := "Who is the 46th US President?";
     context := ["Joseph Robinette Biden is the 46th president."];
     response := "Joseph Robinette Biden" |}.

Definition biden_dict : PyDict Value :=
  [ ("question", VStr "Who is the 46th US President?");
    ("context", VList ["Joseph Robinette Biden is the 46th president."]);
    ("response", VStr "Joseph Robinette Biden") ].

Definition capital : DataNode :=
  {| question := "What is the capital of France?";
     context := ["Paris"];
     response := "Paris" |}.

(** A result whose only metric is called like a dataset field. *)
Definition clash_result : EvalResult :=
  {| llm := gpt; metrics := [const_metric "question" one]; dataset := [biden];
     scores := [[one]]; response_time := one |}.

(** A result with two metrics of the same name and one of another. *)
Definition twin_result : EvalResult :=
  {| llm := gpt;
     metrics := [const_metric "relevancy" one; const_metric "fixed" two;
                 const_metric "relevancy" half];
     dataset := [biden; capital];
     scores := [[one; one]; [two; two]; [half; half]];
     response_time := one |}.

(** A record without a response. *)
Definition blank : DataNode :=
  {| question := "What is the capital of France?";
     context := ["Paris"];
     response := EmptyString |}.

(** Scores 1.0, but raises the default [EvaluationError] on a record without
    a response. *)
Definition strict_metric (metric_name : string) : BaseMetric :=
  {| name := metric_name;
     metric_score := fun d =>
       match response d with
       | EmptyString => Raise EvaluationError_default
       | String _ _ => Ok {| score := one |}
       end |}.

(** A result object that lost a score list after it was built: two metrics,
    one score list. *)
Definition stale_result : EvalResult :=
  {| llm := gpt;
     metrics := [const_metric "relevancy" one; const_metric "fixed" two];
     dataset := [biden; capital];
     scores := [[one; one]];
     response_time := one |}.

(** A result with two metrics of different names. *)
Definition plain_result : EvalResult :=
  {| llm := gpt;
     metrics := [const_metric "relevancy" one; const_metric "fixed" two];
     dataset := [biden; capital];
     scores := [[one; half]; [two; two]];
     response_time := one |}.

(** A clock that reads 1.0 first and 2.0 from then on. *)
Definition world0 : World :=
  {| clock := fun k => match k with 0 => one | _ => two end;
     ticks := 0; log := [] |}.

(** A clock that stands still. *)
Definition frozen : World :=
  {| clock := fun _ => one; ticks := 0; log := [] |}.

End Samples.

(** * Properties *)

(** ** Comparison with zero *)


(** ** Loops *)

Lemma for_each_ok {A} (body : A -> Result unit) (xs : list A) :
  for_each body xs = Ok tt <-> Forall (fun x => body x = Ok tt) xs.
Proof.
  induction xs as [| x xs IH]; simpl.
  - split; [constructor | reflexivity].
  - destruct (body x) as [[] | e] eqn:Hx; simpl.
    + rewrite IH. split.
      * intros H. constructor; assumption.
      * intros H. inversion H; assumption.
    + split; [discriminate |].
      intros H. inversion H; congruence.
Qed.

Lemma for_each_raise {A} (body : A -> Result unit) (xs : list A) e :
  for_each body xs = Raise e -> exists x, In x xs /\ body x = Raise e.
Proof.
  induction xs as [| x xs IH]; simpl; [discriminate |].
  destruct (body x) as [[] | e'] eqn:Hx; simpl; intros H.
  - destruct (IH H) as [x' [Hin Hx']]. exists x'. auto.
  - injection H as <-. exists x. auto.
Qed.

Lemma list_comp_ok {A B} (f : A -> Result B) (xs : list A) (ys : list B) :
  list_comp f xs = Ok ys <-> Forall2 (fun x y => f x = Ok y) xs ys.
Proof.
  revert ys. induction xs as [| x xs IH]; intros ys; simpl.
  - split.
    + intros H. injection H as <-. constructor.
    + intros H. inversion H. reflexivity.
  - destruct (f x) as [y | e] eqn:Hx; simpl.
    + destruct (list_comp f xs) as [ys' | e] eqn:Hxs; simpl.
      * split.
        -- intros H. injection H as <-. constructor; [assumption |].
           apply IH. reflexivity.
        -- intros H. inversion H as [| ? y0 ? ys0 Hy Hys]; subst.
           apply IH in Hys. congruence.
      * split; [discriminate |].
        intros H. inversion H as [| ? y0 ? ys0 Hy Hys]; subst.
        apply IH in Hys. discriminate.
    + split; [discriminate |].
      intros H. inversion H; congruence.
Qed.

Lemma list_comp_total {A B} (f : A -> Result B) (xs : list A) :
  (forall x, In x xs -> exists y, f x = Ok y) ->
  exists ys, list_comp f xs = Ok ys.
Proof.
  induction xs as [| x xs IH]; intros H; simpl.
  - eexists; reflexivity.
  - destruct (H x) as [y Hy]; [left; reflexivity |].
    destruct IH as [ys Hys]; [intros z Hz; apply H; right; assumption |].
    rewrite Hy, Hys. simpl. eexists; reflexivity.
Qed.

Lemma Forall2_nth_error {A B} (P : A -> B -> Prop) xs ys :
  Forall2 P xs ys ->
  length ys = length xs /\
  forall i x, nth_error xs i = Some x ->
    exists y, nth_error ys i = Some y /\ P x y.
Proof.
  induction 1 as [| x y xs ys Hxy _ [IHl IH]]; simpl.
  - split; [reflexivity |]. intros [| i] x; discriminate.
  - split; [congruence |].
    intros [| i] x'; simpl; intros Hx.
    + injection Hx as <-. eauto.
    + apply IH; assumption.
Qed.

(** ** The validator *)

Section Validation.

Context {C : Collaborators}.

Lemma validator_ok (self r : EvalResult) :
  validator self = Ok r <-> r = self /\ counts_agree self.
Proof.
  unfold validator, counts_agree.
  destruct (Nat.eqb (length (metrics self)) (length (scores self))) eqn:Hm; simpl.
  - apply Nat.eqb_eq in Hm.
    destruct (for_each _ (scores self)) as [[] | e] eqn:Hf; simpl.
    + apply for_each_ok in Hf. rewrite Forall_forall in Hf. split.
      * intros H. injection H as <-. split; [reflexivity |].
        split; [assumption |].
        intros i s Hs. apply nth_error_In in Hs. apply Hf in Hs.
        destruct (Nat.eqb (length s) (Dataset.len (dataset self))) eqn:E;
          [apply Nat.eqb_eq; assumption | discriminate].
      * intros [-> _]. reflexivity.
    + split; [discriminate |].
      intros [_ [_ Hs]]. exfalso.
      assert (Hok : for_each
                      (fun score0 =>
                         if negb (Nat.eqb (length score0) (Dataset.len (dataset self)))
                         then Raise (ValueError datapoints_scores_message)
                         else Ok tt) (scores self) = Ok tt).
      { apply for_each_ok, Forall_forall. intros s Hin.
        apply In_nth_error in Hin as [i Hi]. apply Hs in Hi.
        rewrite Hi, Nat.eqb_refl. reflexivity. }
      congruence.
  - apply Nat.eqb_neq in Hm. split; [discriminate |].
    intros [_ [Hl _]]. contradiction.
Qed.

(** What [validator] raises, and when. *)
Lemma validator_raise (self : EvalResult) (e : PyException) :
  validator self = Raise e ->
  (length (metrics self) <> length (scores self) /\
   e = ValueError metrics_scores_message) \/
  (length (metrics self) = length (scores self) /\
   (exists s, In s (scores self) /\ length s <> Dataset.len (dataset self)) /\
   e = ValueError datapoints_scores_message).
Proof.
  unfold validator.
  destruct (Nat.eqb (length (metrics self)) (length (scores self))) eqn:Hm; simpl.
  - apply Nat.eqb_eq in Hm. intros H. right. split; [assumption |].
    destruct (for_each _ (scores self)) as [[] | e'] eqn:Hf; simpl in H;
      [discriminate |].
    injection H as <-. apply for_each_raise in Hf as [s [Hin Hs]].
    destruct (Nat.eqb (length s) (Dataset.len (dataset self))) eqn:E;
      simpl in Hs; [discriminate |].
    apply Nat.eqb_neq in E. injection Hs as <-.
    split; [exists s; split; assumption | reflexivity].
  - apply Nat.eqb_neq in Hm. intros H. injection H as <-.
    left. split; [assumption | reflexivity].
Qed.

(** A successful construction stores its arguments unchanged and has
    checked both the field constraint and the count invariants. *)
Lemma EvalResult_init_ok l ms ds rt sc (r : EvalResult) :
  EvalResult_init l ms ds rt sc = Ok r <->
  r = {| llm := l; metrics := ms; dataset := ds; scores := sc;
         response_time := rt |} /\
  float_gt rt float_zero = true /\
  counts_agree r.
Proof.
  unfold EvalResult_init.
  destruct (float_gt rt float_zero) eqn:Hgt.
  - destruct (validator _) as [r' | e] eqn:Hv.
    + apply validator_ok in Hv as [-> Hc]. split.
      * intros H. injection H as <-. auto.
      * intros [-> _]. reflexivity.
    + split.
      * destruct e; discriminate.
      * intros [-> [_ Hc]].
        assert (Hv' : validator
                        {| llm := l; metrics := ms; dataset := ds; scores := sc;
                           response_time := rt |}
                      = Ok {| llm := l; metrics := ms; dataset := ds;
                              scores := sc; response_time := rt |})
          by (apply validator_ok; auto).
        congruence.
  - split; [discriminate |]. intros [_ [H _]]. discriminate.
Qed.

(** A failed construction raises a [ValidationError], for one of three
    reasons. *)
Lemma EvalResult_init_raise l ms ds rt sc (e : PyException) :
  EvalResult_init l ms ds rt sc = Raise e ->
  (float_gt rt float_zero = false /\
   e = ValidationError [greater_than_detail "response_time"]) \/
  (float_gt rt float_zero = true /\ length ms <> length sc /\
   e = ValidationError [value_error_detail metrics_scores_message]) \/
  (float_gt rt float_zero = true /\ length ms = length sc /\
   (exists s, In s sc /\ length s <> Dataset.len ds) /\
   e = ValidationError [value_error_detail datapoints_scores_message]).
Proof.
  unfold EvalResult_init.
  destruct (float_gt rt float_zero) eqn:Hgt.
  - destruct (validator _) as [r' | e'] eqn:Hv; [discriminate |].
    apply validator_raise in Hv; simpl in Hv.
    destruct Hv as [[Hl ->] | [Hl [Hs ->]]]; intros H; injection H as <-.
    + right; left. auto.
    + right; right. auto.
  - intros H. injection H as <-. left. auto.
Qed.

End Validation.

(** ** Construction of an [EvalResult] *)

Import Samples.

(** C1.  A constructed [EvalResult] holds exactly the metrics, dataset and
    score lists it was given (nothing is truncated or padded), has as many
    score lists as metrics, and every score list is as long as the dataset;
    a construction that breaks either equation raises a [ValidationError]. *)
Theorem EvalResult_count_invariant `{Collaborators} l ms ds rt sc :
  (forall r, EvalResult_init l ms ds rt sc = Ok r ->
     metrics r = ms /\ dataset r = ds /\ scores r = sc /\
     length (metrics r) = length (scores r) /\
     forall i s, nth_error (scores r) i = Some s ->
                 length s = Dataset.len (dataset r))
  /\
  ((length ms <> length sc \/
    exists i s, nth_error sc i = Some s /\ length s <> Dataset.len ds) ->
   exists errors, EvalResult_init l ms ds rt sc = Raise (ValidationError errors)).
Proof.
  split.
  - intros r Hr. apply EvalResult_init_ok in Hr as [-> [_ [Hm Hs]]].
    simpl in *. auto.
  - intros Hbad.
    destruct (EvalResult_init l ms ds rt sc) as [r | e] eqn:Hr.
    + exfalso. apply EvalResult_init_ok in Hr as [-> [_ [Hm Hs]]]. simpl in *.
      destruct Hbad as [Hbad | [i [s [Hi Hbad]]]]; [contradiction |].
      apply Hbad. apply (Hs i). assumption.
    + apply EvalResult_init_raise in Hr
        as [[_ ->] | [[_ [_ ->]] | [_ [_ [_ ->]]]]]; eexists; reflexivity.
Qed.

Lemma EvalResult_count_invariant_witness :
  (exists r, EvalResult_init gpt [echo_metric "relevancy"] [biden] one [[one]]
             = Ok r /\
             length (metrics r) = length (scores r)) /\
  (exists errors,
     EvalResult_init gpt [echo_metric "relevancy"; const_metric "fixed" half]
       [biden] one [[one]]
     = Raise (ValidationError errors)).
Proof.
  split.
  - eexists. split; [reflexivity |].
    apply (proj1 (EvalResult_count_invariant
                    gpt [echo_metric "relevancy"] [biden] one [[one]]) _ eq_refl).
  - apply (proj2 (EvalResult_count_invariant
                    gpt [echo_metric "relevancy"; const_metric "fixed" half]
                    [biden] one [[one]])).
    left. simpl. lia.
Defined.



(** C7, as stated, fails: with two metrics and one score list the message of
    the [ValidationError] holds neither count, indeed no digit at all. *)
Lemma validation_message_counts_counterexample :
  exists d,
    EvalResult_init gpt [echo_metric "relevancy"; const_metric "fixed" half]
      [biden] one [[one]]
    = Raise (ValidationError [d]) /\
    contains (str_of_nat 2) (err_msg d) = false /\
    contains (str_of_nat 1) (err_msg d) = false /\
    has_digit (err_msg d) = false.
Proof.
  eexists. split; [reflexivity |]. repeat split; reflexivity.
Qed.

(** C7, amended.  When the response time is positive and a count invariant
    fails, the [ValidationError] carries one of two fixed messages that tells
    which invariant failed: one for a metric/score count mismatch, another for
    a score list whose length is not the dataset's.  The two messages differ,
    and neither of them holds a digit: the counts are not in the message. *)
Theorem validation_message `{Collaborators} l ms ds rt sc :
  float_gt rt float_zero = true ->
  (length ms <> length sc ->
   EvalResult_init l ms ds rt sc
   = Raise (ValidationError [value_error_detail metrics_scores_message]))
  /\
  (length ms = length sc ->
   (exists s, In s sc /\ length s <> Dataset.len ds) ->
   EvalResult_init l ms ds rt sc
   = Raise (ValidationError [value_error_detail datapoints_scores_message]))
  /\
  err_msg (value_error_detail metrics_scores_message)
  <> err_msg (value_error_detail datapoints_scores_message)
  /\
  has_digit (err_msg (value_error_detail metrics_scores_message)) = false
  /\
  has_digit (err_msg (value_error_detail datapoints_scores_message)) = false.
Proof.
  intros Hgt.
  assert (Hcase :
            forall e, EvalResult_init l ms ds rt sc = Raise e ->
              (length ms <> length sc /\
               e = ValidationError [value_error_detail metrics_scores_message]) \/
              (length ms = length sc /\
               e = ValidationError [value_error_detail datapoints_scores_message])).
  { intros e He. apply EvalResult_init_raise in He
      as [[Hf _] | [[_ [Hl ->]] | [_ [Hl [_ ->]]]]]; [congruence | auto | auto]. }
  assert (Hfail :
            ~ counts_agree {| llm := l; metrics := ms; dataset := ds; scores := sc;
                              response_time := rt |} ->
            exists e, EvalResult_init l ms ds rt sc = Raise e).
  { intros Hbad. destruct (EvalResult_init l ms ds rt sc) as [r | e] eqn:Hr.
    - apply EvalResult_init_ok in Hr as [-> [_ Hc]]. contradiction.
    - eauto. }
  split; [| split; [| split; [| split]]].
  - intros Hl. destruct Hfail as [e He].
    + intros [Hm _]. simpl in Hm. contradiction.
    + rewrite He. destruct (Hcase e He) as [[_ ->] | [Heq _]];
        [reflexivity | contradiction].
  - intros Hl [s [Hin Hs]]. destruct Hfail as [e He].
    + intros [_ Hall]. simpl in Hall.
      apply In_nth_error in Hin as [i Hi]. apply Hs, (Hall i). assumption.
    + rewrite He. destruct (Hcase e He) as [[Hne _] | [_ ->]];
        [contradiction | reflexivity].
  - vm_compute. discriminate.
  - reflexivity.
  - reflexivity.
Qed.

Lemma validation_message_witness :
  EvalResult_init gpt [echo_metric "relevancy"; const_metric "fixed" half]
    [biden] one [[one]]
  = Raise (ValidationError [value_error_detail metrics_scores_message]) /\
  EvalResult_init gpt [echo_metric "relevancy"] [biden] one [[one; half]]
  = Raise (ValidationError [value_error_detail datapoints_scores_message]).
Proof.
  split.
  - apply (proj1 (validation_message
                    gpt [echo_metric "relevancy"; const_metric "fixed" half]
                    [biden] one [[one]] eq_refl)).
    simpl. lia.
  - apply (proj1 (proj2 (validation_message
                           gpt [echo_metric "relevancy"] [biden] one
                           [[one; half]] eq_refl))).
    + reflexivity.
    + exists [one; half]. split; [left; reflexivity | simpl; lia].
Defined.

(** ** The orchestrator *)

Section Orchestrator.

Context {C : Collaborators}.

(** The scoring loop fills the grid metric by metric, record by record. *)
Lemma scoring_loop_grid ms ds g :
  scoring_loop ms ds = Ok g -> grid_of ms ds g.
Proof.
  unfold scoring_loop, Dataset.with_progress, grid_of. intros Hg.
  apply list_comp_ok, Forall2_nth_error in Hg as [Hlen Hrows].
  split; [assumption |].
  intros i m Hm. destruct (Hrows i m Hm) as [row [Hrow Hcomp]].
  exists row. split; [assumption |].
  apply list_comp_ok, Forall2_nth_error in Hcomp as [Hl Hcells].
  split; [assumption |].
  intros j d Hd. destruct (Hcells j d Hd) as [x [Hx Hs]].
  destruct (metric_score m d) as [res | e]; simpl in Hs; [| discriminate].
  injection Hs as <-. exists res. auto.
Qed.

(** It returns as soon as every scoring call does. *)
Lemma scoring_loop_total ms ds :
  (forall m d, In m ms -> In d ds -> exists res, metric_score m d = Ok res) ->
  exists g, scoring_loop ms ds = Ok g.
Proof.
  intros Hall. unfold scoring_loop, Dataset.with_progress.
  apply list_comp_total. intros m Hm.
  apply list_comp_total. intros d Hd.
  destruct (Hall m d Hm Hd) as [res ->]. simpl. eauto.
Qed.

(** [evaluate] step by step, for an explicit client. *)
Lemma evaluate_unfold (x : Data) (l : BaseLLM) (ma : MetricsArg) (w : World) :
  evaluate (DataOf x) (Some l) ma w =
  match scoring_loop (normalized_metrics ma) (resolved_dataset x) with
  | Ok sc =>
      (EvalResult_init l (normalized_metrics ma) (resolved_dataset x)
         (elapsed w (ticks w)) sc,
       {| clock := clock w; ticks := S (S (ticks w));
          log := log w ++
                 [("Evaluation completed with "
                   ++ str_of_nat (length (normalized_metrics ma))
                   ++ " metrics")%string] |})
  | Raise e =>
      (Raise e, {| clock := clock w; ticks := S (ticks w); log := log w |})
  end.
Proof.
  unfold evaluate, bind, ret, lift, time, logger_info, elapsed. simpl.
  fold (resolved_dataset x). fold (normalized_metrics ma).
  fold (scoring_loop (normalized_metrics ma) (resolved_dataset x)).
  destruct (scoring_loop _ _); reflexivity.
Qed.

(** Without a client, [evaluate] obtains the default one and goes on as with
    it; what [default_llm] raises is raised. *)
Lemma evaluate_default_client (x : Data) (ma : MetricsArg) (w : World) :
  evaluate (DataOf x) None ma w
  = match default_llm w with
    | (Ok l, w1) => evaluate (DataOf x) (Some l) ma w1
    | (Raise e, w1) => (Raise e, w1)
    end.
Proof.
  unfold evaluate, bind, ret. simpl.
  destruct (default_llm w) as [[l | e] w1]; reflexivity.
Qed.

(** A mapping that is converted, by the decorator or by [from_dict], is
    handled like what it is converted to. *)
Lemma evaluate_after_conversion data (x : Data) lo ma (w : World) :
  converted data = Ok x ->
  evaluate data lo ma w = evaluate (DataOf x) lo ma w.
Proof.
  destruct data as [d | x0]; simpl; intros Hx.
  - unfold evaluate, validate_call_data.
    destruct (validate_mapping d) as [x1 |].
    + injection Hx as ->. reflexivity.
    + unfold bind, lift, ret. rewrite Hx. reflexivity.
  - injection Hx as ->. reflexivity.
Qed.

(** A mapping that neither the decorator nor [from_dict] can convert makes
    [evaluate] raise what [from_dict] raises, before anything else happens. *)
Lemma evaluate_conversion_error data (e : PyException) lo ma (w : World) :
  converted data = Raise e ->
  evaluate data lo ma w = (Raise e, w).
Proof.
  destruct data as [d | x0]; simpl; intros Hx; [| discriminate].
  unfold evaluate, validate_call_data.
  destruct (validate_mapping d) as [x1 |]; [discriminate |].
  unfold bind, lift. rewrite Hx. reflexivity.
Qed.

(** What a returning call of [evaluate] went through. *)
Lemma evaluate_ok_inv data lo ma w (r : EvalResult) w' :
  evaluate data lo ma w = (Ok r, w') ->
  exists x,
    converted data = Ok x /\
    metrics r = normalized_metrics ma /\
    dataset r = resolved_dataset x /\
    scoring_loop (metrics r) (dataset r) = Ok (scores r) /\
    float_gt (response_time r) float_zero = true.
Proof.
  assert (Hrun : forall x l w1,
             evaluate (DataOf x) (Some l) ma w1 = (Ok r, w') ->
             metrics r = normalized_metrics ma /\
             dataset r = resolved_dataset x /\
             scoring_loop (metrics r) (dataset r) = Ok (scores r) /\
             float_gt (response_time r) float_zero = true).
  { intros x l w1. rewrite evaluate_unfold.
    destruct (scoring_loop (normalized_metrics ma) (resolved_dataset x))
      as [sc | e] eqn:Hsc; [| discriminate].
    destruct (EvalResult_init _ _ _ _ sc) as [r' | e] eqn:Hr; [| discriminate].
    intros Heq. injection Heq as <- <-.
    apply EvalResult_init_ok in Hr as [-> [Hgt _]]. simpl. auto. }
  intros Hr. destruct (converted data) as [x | e0] eqn:Hx;
    [rewrite (evaluate_after_conversion data lo ma w Hx) in Hr
    | rewrite (evaluate_conversion_error data lo ma w Hx) in Hr; discriminate].
  exists x. split; [reflexivity |].
  destruct lo as [l |]; [apply (Hrun x l w Hr) |].
  rewrite evaluate_default_client in Hr.
  destruct (default_llm w) as [[l | e] w1]; [| discriminate].
  apply (Hrun x l w1 Hr).
Qed.

(** Every score list the scoring loop produces is as long as the dataset. *)
Lemma grid_counts_agree l ms ds rt g :
  grid_of ms ds g ->
  counts_agree {| llm := l; metrics := ms; dataset := ds; scores := g;
                  response_time := rt |}.
Proof.
  intros [Hlen Hrows]. split; simpl; [congruence |].
  intros i s Hs.
  assert (Hi : i < length ms)
    by (rewrite <- Hlen; apply nth_error_Some; congruence).
  destruct (nth_error ms i) as [m |] eqn:Hm;
    [| apply nth_error_None in Hm; lia].
  destruct (Hrows i m Hm) as [row [Hrow [Hl _]]].
  unfold Dataset.len. congruence.
Qed.

End Orchestrator.

(** C2.  For a dataset and a list of metrics whose scoring calls all return,
    and a clock that advanced between the two readings, [evaluate] returns a
    result whose grid holds in row [i], entry [j] the score that metric [i]
    gives record [j]: metric order and record order are kept.  The grid of
    any returning call, whatever the form of its arguments, is of this
    kind. *)
Theorem evaluate_ordering `{Collaborators} (ds : Dataset.t)
  (ms : list BaseMetric) (l : BaseLLM) (w : World) :
  (forall m d, In m ms -> In d ds -> exists res, metric_score m d = Ok res) ->
  float_gt (elapsed w (ticks w)) float_zero = true ->
  (exists r w',
     evaluate (DataOf (IsDataset ds)) (Some l) (MetricsList ms) w = (Ok r, w') /\
     metrics r = ms /\ dataset r = ds /\ grid_of ms ds (scores r))
  /\
  (forall data lo ma w0 r w',
     evaluate data lo ma w0 = (Ok r, w') ->
     grid_of (metrics r) (dataset r) (scores r)).
Proof.
  intros Hall Hgt. split.
  - destruct (scoring_loop_total ms ds Hall) as [g Hg].
    rewrite evaluate_unfold. simpl. rewrite Hg.
    assert (Hgrid : grid_of ms ds g) by (apply scoring_loop_grid; assumption).
    eexists. eexists. split.
    + f_equal. apply EvalResult_init_ok.
      split; [reflexivity |]. split; [assumption |].
      apply grid_counts_agree. assumption.
    + simpl. auto.
  - intros data lo ma w0 r w' Hr.
    apply evaluate_ok_inv in Hr as [x [_ [_ [_ [Hloop _]]]]].
    apply scoring_loop_grid. assumption.
Qed.

Lemma evaluate_ordering_witness :
  exists r w',
    evaluate (DataOf (IsDataset [biden; capital])) (Some gpt)
      (MetricsList [echo_metric "relevancy"; const_metric "fixed" two]) world0
    = (Ok r, w') /\
    scores r = [[half; one]; [two; two]].
Proof.
  destruct (proj1 (evaluate_ordering
                     [biden; capital]
                     [echo_metric "relevancy"; const_metric "fixed" two]
                     gpt world0
                     ltac:(intros m d [<- | [<- | []]] [<- | [<- | []]];
                           eexists; reflexivity)
                     eq_refl))
    as [r [w' [Hr _]]].
  exists r, w'. split; [assumption |].
  vm_compute in Hr. injection Hr as <- _. reflexivity.
Defined.





(** C5.  A lone metric is wrapped into a one-element list before the
    scoring loop: [evaluate(data, metrics=m)] is [evaluate(data, metrics=[m])]
    on every argument and in every world, and when the scoring calls of [m]
    return and the clock advances, both return the same result, whose
    metrics are [[m]] and whose grid is the single row of the scores of [m]
    on the records, in record order. *)
Theorem evaluate_single_metric `{Collaborators} (x : Data) (l : BaseLLM)
  (m : BaseMetric) (w : World) :
  (forall d, In d (resolved_dataset x) -> exists res, metric_score m d = Ok res) ->
  float_gt (elapsed w (ticks w)) float_zero = true ->
  (exists r w' row,
     evaluate (DataOf x) (Some l) (MetricsOne m) w = (Ok r, w') /\
     evaluate (DataOf x) (Some l) (MetricsList [m]) w = (Ok r, w') /\
     metrics r = [m] /\
     scores r = [row] /\
     length row = length (resolved_dataset x) /\
     forall j d, nth_error (resolved_dataset x) j = Some d ->
       exists res, metric_score m d = Ok res /\
                   nth_error row j = Some (score res))
  /\
  (forall data lo w0,
     evaluate data lo (MetricsOne m) w0 = evaluate data lo (MetricsList [m]) w0).
Proof.
  intros Hall Hgt. split; [| reflexivity].
  destruct (scoring_loop_total [m] (resolved_dataset x)) as [g Hg].
  { intros m' d [<- | []] Hd. apply Hall. assumption. }
  pose proof Hg as Hgrid. apply scoring_loop_grid in Hgrid.
  destruct Hgrid as [Hlen Hrows].
  destruct (Hrows 0 m eq_refl) as [row [Hrow [Hlrow Hcells]]].
  destruct g as [| row0 [| row1 g]]; simpl in Hlen; try discriminate.
  simpl in Hrow. injection Hrow as ->.
  assert (Hinit : EvalResult_init l [m] (resolved_dataset x)
                    (elapsed w (ticks w)) [row]
                  = Ok {| llm := l; metrics := [m];
                          dataset := resolved_dataset x; scores := [row];
                          response_time := elapsed w (ticks w) |}).
  { apply EvalResult_init_ok. split; [reflexivity |]. split; [assumption |].
    apply grid_counts_agree. apply scoring_loop_grid. assumption. }
  eexists. eexists. exists row.
  split; [rewrite evaluate_unfold; simpl; rewrite Hg, Hinit; reflexivity |].
  split; [rewrite evaluate_unfold; simpl; rewrite Hg, Hinit; reflexivity |].
  simpl. auto.
Qed.

Lemma evaluate_single_metric_witness :
  exists r w',
    evaluate (DataOf (IsDataset [biden; capital])) (Some gpt)
      (MetricsOne (echo_metric "relevancy")) world0
    = (Ok r, w') /\
    metrics r = [echo_metric "relevancy"] /\
    scores r = [[half; one]].
Proof.
  destruct (proj1 (evaluate_single_metric
                     (IsDataset [biden; capital]) gpt
                     (echo_metric "relevancy") world0
                     ltac:(intros d [<- | [<- | []]]; eexists; reflexivity)
                     eq_refl))
    as [r [w' [row [Hr [_ [Hm [Hs _]]]]]]].
  exists r, w'. split; [assumption |]. split; [assumption |].
  vm_compute in Hr. injection Hr as <- _. reflexivity.
Defined.

(** C6, as stated, fails: a call with an empty metric list returns an
    [EvalResult] with zero metrics. *)
Lemma evaluate_empty_metrics_counterexample :
  exists r w',
    evaluate (DataOf (IsDataset [biden])) (Some gpt) (MetricsList []) world0
    = (Ok r, w') /\
    metrics r = [] /\ scores r = [].
Proof.
  eexists. eexists. split; [vm_compute; reflexivity |]. split; reflexivity.
Qed.

(** C6, amended.  [evaluate] does not check that the normalized metrics are
    non-empty: with an empty metric list and a clock that advanced between the
    two readings it returns an [EvalResult] with zero metrics and an empty
    grid. *)
Theorem evaluate_empty_metrics `{Collaborators} (x : Data) (l : BaseLLM)
  (w : World) :
  float_gt (elapsed w (ticks w)) float_zero = true ->
  exists r w',
    evaluate (DataOf x) (Some l) (MetricsList []) w = (Ok r, w') /\
    metrics r = [] /\ scores r = [] /\ dataset r = resolved_dataset x.
Proof.
  intros Hgt. rewrite evaluate_unfold. simpl.
  eexists. eexists. split.
  - f_equal. apply EvalResult_init_ok.
    split; [reflexivity |]. split; [assumption |].
    split; simpl; [reflexivity |]. intros [| i] s; discriminate.
  - simpl. auto.
Qed.

Lemma evaluate_empty_metrics_witness :
  exists r w',
    evaluate (DataOf (IsDataNode capital)) (Some gpt) (MetricsList []) world0
    = (Ok r, w') /\
    metrics r = [] /\ scores r = [] /\ dataset r = [capital].
Proof.
  apply (evaluate_empty_metrics (IsDataNode capital) gpt world0 eq_refl).
Defined.

(** On a clock that stands still the measured time is zero, and [evaluate]
    raises the report on [response_time] although every score was computed. *)
Lemma evaluate_frozen_clock :
  fst (evaluate (DataOf (IsDataset [biden])) (Some gpt)
         (MetricsList [echo_metric "relevancy"]) frozen)
  = Raise (ValidationError [greater_than_detail "response_time"]).
Proof.
  reflexivity.
Qed.

(** The one-record scenario: a raw mapping, the default client and the
    default metric give a one-by-one grid, and one line in the log. *)
Lemma evaluate_biden :
  exists r w',
    evaluate (DataDict biden_dict) None MetricsNone world0 = (Ok r, w') /\
    scores r = [[half]] /\
    dataset r = [biden] /\
    log w' = ["Evaluation completed with 1 metrics"] /\
    ticks w' = 2.
Proof.
  eexists. eexists. split; [vm_compute; reflexivity |]. repeat split.
Qed.

(** The default [EvaluationError] is a [RagRankError]. *)
Lemma EvaluationError_is_RagRankError :
  is_RagRankError EvaluationError_default = true.
Proof.
  reflexivity.
Qed.

(** ** Dictionaries *)

Section Dictionaries.

Context {V : Type}.

Lemma dict_get_set (k k' : string) (v : V) (d : PyDict V) :
  dict_get k (dict_set k' v d)
  = if String.eqb k k' then Some v else dict_get k d.
Proof.
  induction d as [| [k0 v0] d IH]; simpl.
  - reflexivity.
  - destruct (String.eqb k' k0) eqn:E0; simpl.
    + apply String.eqb_eq in E0. subst k0.
      destruct (String.eqb k k'); reflexivity.
    + destruct (String.eqb k k0) eqn:E1.
      * apply String.eqb_eq in E1. subst k0.
        rewrite String.eqb_sym, E0. reflexivity.
      * assumption.
Qed.

Lemma dict_keys_set (k : string) (v : V) (d : PyDict V) :
  dict_keys (dict_set k v d)
  = if existsb (String.eqb k) (dict_keys d) then dict_keys d
    else dict_keys d ++ [k].
Proof.
  unfold dict_keys. induction d as [| [k0 v0] d IH]; simpl.
  - reflexivity.
  - destruct (String.eqb k k0) eqn:E0; simpl; [reflexivity |].
    rewrite IH. destruct (existsb _ _); reflexivity.
Qed.

Lemma dict_get_fill (k : string) (kvs : list (string * V)) (acc : PyDict V) :
  dict_get k (dict_fill kvs acc)
  = match assoc_last k kvs with
    | Some v => Some v
    | None => dict_get k acc
    end.
Proof.
  revert acc. induction kvs as [| [k' v] kvs IH]; intros acc; simpl.
  - reflexivity.
  - unfold dict_fill in *. simpl. rewrite IH.
    destruct (assoc_last k kvs); [reflexivity |].
    rewrite dict_get_set. destruct (String.eqb k k'); reflexivity.
Qed.

Lemma dict_keys_fill (kvs : list (string * V)) (acc : PyDict V) :
  dict_keys (dict_fill kvs acc)
  = dict_keys acc ++ first_occurrences (dict_keys acc) (map fst kvs).
Proof.
  revert acc. induction kvs as [| [k v] kvs IH]; intros acc; simpl.
  - symmetry. apply app_nil_r.
  - unfold dict_fill in *. simpl. rewrite IH, dict_keys_set.
    destruct (existsb _ _); [reflexivity |].
    rewrite <- app_assoc. reflexivity.
Qed.

End Dictionaries.

(** ** Names and their first occurrences *)

Lemma existsb_eqb_In (n : string) (l : list string) :
  existsb (String.eqb n) l = true <-> In n l.
Proof.
  rewrite existsb_exists. split.
  - intros [x [Hin Hx]]. apply String.eqb_eq in Hx. subst. assumption.
  - intros Hin. exists n. split; [assumption | apply String.eqb_refl].
Qed.

Lemma first_occurrences_In (seen names : list string) (x : string) :
  In x (seen ++ first_occurrences seen names) <-> In x (seen ++ names).
Proof.
  revert seen. induction names as [| n names IH]; intros seen; simpl.
  - reflexivity.
  - destruct (existsb (String.eqb n) seen) eqn:E.
    + apply existsb_eqb_In in E. rewrite IH, !in_app_iff. simpl.
      split; [tauto |]. intros [H | [<- | H]]; auto.
    + specialize (IH (seen ++ [n])). rewrite <- !app_assoc in IH. simpl in IH.
      exact IH.
Qed.

Lemma first_occurrences_NoDup (seen names : list string) :
  NoDup seen -> NoDup (seen ++ first_occurrences seen names).
Proof.
  revert seen. induction names as [| n names IH]; intros seen Hseen; simpl.
  - rewrite app_nil_r. assumption.
  - destruct (existsb (String.eqb n) seen) eqn:E.
    + apply IH. assumption.
    + specialize (IH (seen ++ [n])). rewrite <- !app_assoc in IH. simpl in IH.
      apply IH. apply NoDup_app; [assumption | repeat constructor; simpl; tauto |].
      intros x Hx [<- | []].
      apply existsb_eqb_In in Hx. congruence.
Qed.

(** Two duplicate-free lists with the same elements are equally long. *)
Lemma NoDup_same_length (l1 l2 : list string) :
  NoDup l1 -> NoDup l2 -> (forall x, In x l1 <-> In x l2) ->
  length l1 = length l2.
Proof.
  intros H1 H2 Hiff. apply Nat.le_antisymm.
  - apply NoDup_incl_length; [assumption |]. intros x Hx. apply Hiff. assumption.
  - apply NoDup_incl_length; [assumption |]. intros x Hx. apply Hiff. assumption.
Qed.

Lemma first_occurrences_count (seen names : list string) :
  NoDup seen ->
  length (seen ++ first_occurrences seen names) = distinct_count (seen ++ names).
Proof.
  intros Hseen. unfold distinct_count. apply NoDup_same_length.
  - apply first_occurrences_NoDup. assumption.
  - apply NoDup_nodup.
  - intros x. rewrite first_occurrences_In, nodup_In. reflexivity.
Qed.

Lemma distinct_count_disjoint (l1 l2 : list string) :
  NoDup l1 -> (forall x, In x l2 -> ~ In x l1) ->
  distinct_count (l1 ++ l2) = length l1 + distinct_count l2.
Proof.
  intros H1 Hdis. unfold distinct_count. rewrite <- length_app.
  apply NoDup_same_length.
  - apply NoDup_nodup.
  - apply NoDup_app; [assumption | apply NoDup_nodup |].
    intros x Hx1 Hx2. apply nodup_In in Hx2. apply (Hdis x); assumption.
  - intros x. rewrite nodup_In, !in_app_iff, nodup_In. reflexivity.
Qed.

(** ** Loops over [range(len(metrics))] *)

(** A loop over the positions of two equally long lists is a loop over their
    pairs. *)
Lemma for_fold_seq_combine {A B St} (body : St -> nat -> Result St)
  (body' : St -> A -> B -> Result St) (xs : list A) (ys : list B) :
  length xs = length ys ->
  forall (a : nat) (acc : St),
    (forall acc' i x y, nth_error xs i = Some x -> nth_error ys i = Some y ->
                        body acc' (a + i) = body' acc' x y) ->
    for_fold body (seq a (length xs)) acc
    = for_fold (fun acc' p => body' acc' (fst p) (snd p)) (combine xs ys) acc.
Proof.
  revert ys. induction xs as [| x xs IH]; intros [| y ys] Hlen a acc Hbody;
    simpl in *; try discriminate; [reflexivity |].
  rewrite <- (Hbody acc 0 x y eq_refl eq_refl), Nat.add_0_r.
  destruct (body acc a) as [acc1 | e]; simpl; [| reflexivity].
  apply IH; [lia |].
  intros acc' i x' y' Hx Hy.
  rewrite <- (Hbody acc' (S i) x' y' Hx Hy). f_equal. lia.
Qed.

Lemma for_fold_ok_fold_left {A S} (body : S -> A -> Result S) (step : S -> A -> S)
  (P : S -> Prop) (xs : list A) :
  (forall acc x, In x xs -> P acc -> body acc x = Ok (step acc x) /\ P (step acc x)) ->
  forall acc, P acc ->
    for_fold body xs acc = Ok (fold_left step xs acc) /\ P (fold_left step xs acc).
Proof.
  induction xs as [| x xs IH]; intros Hbody acc Hacc; simpl.
  - auto.
  - destruct (Hbody acc x (or_introl eq_refl) Hacc) as [-> Hstep]. simpl.
    apply IH; [| assumption].
    intros acc' x' Hin. apply Hbody. right. assumption.
Qed.

Lemma fold_left_dict_set_map {A V} (key : A -> string) (val : A -> V)
  (xs : list A) (acc : PyDict V) :
  fold_left (fun d x => dict_set (key x) (val x) d) xs acc
  = dict_fill (map (fun x => (key x, val x)) xs) acc.
Proof.
  revert acc. unfold dict_fill.
  induction xs as [| x xs IH]; intros acc; simpl; [reflexivity | apply IH].
Qed.

(** ** The last metric of a name *)

Lemma last_named_Some (n : string) (ms : list BaseMetric) (i : nat) :
  last_named n ms = Some i <->
  (exists m, nth_error ms i = Some m /\ name m = n) /\
  (forall i' m', i < i' -> nth_error ms i' = Some m' -> name m' <> n).
Proof.
  revert i. induction ms as [| m ms IH]; intros i; simpl.
  - split; [discriminate |]. intros [[m [Hm _]] _]. destruct i; discriminate.
  - destruct (last_named n ms) as [k |] eqn:Hk.
    + split.
      * intros Hi. injection Hi as <-.
        destruct (proj1 (IH k) eq_refl) as [Hex Hlater]. split; [exact Hex |].
        intros [| i'] m' Hlt Hm'; [lia |]. apply (Hlater i'); [lia | assumption].
      * intros [[m0 [Hm0 Hn]] Hlater]. destruct i as [| i].
        -- exfalso. destruct (proj1 (IH k) eq_refl) as [[mk [Hmk Hnk]] _].
           apply (Hlater (S k) mk); [lia | assumption | assumption].
        -- f_equal. assert (Hk' : Some k = Some i); [| congruence].
           apply IH. split; [eauto |].
           intros i' m' Hlt Hm'. apply (Hlater (S i')); [lia | assumption].
    + assert (Hnone : forall i' m', nth_error ms i' = Some m' -> name m' <> n).
      { intros i' m' Hm' Hn.
        assert (Hsome : exists j, last_named n ms = Some j); [| destruct Hsome; congruence].
        clear IH Hk. revert i' Hm'. induction ms as [| m1 ms IHms]; intros i' Hm'.
        - destruct i'; discriminate.
        - simpl. destruct (last_named n ms) as [j |] eqn:Hj; [eauto |].
          destruct i' as [| i']; simpl in Hm'.
          + injection Hm' as ->. rewrite <- Hn, String.eqb_refl. eauto.
          + destruct (IHms i' Hm') as [j Hj']. discriminate. }
      destruct (String.eqb n (name m)) eqn:E.
      * apply String.eqb_eq in E. split.
        -- intros Hi. injection Hi as <-. split; [exists m; auto |].
           intros [| i'] m' Hlt Hm'; [lia |]. apply (Hnone i'). assumption.
        -- intros [[m0 [Hm0 Hn]] _]. destruct i as [| i]; [reflexivity |].
           exfalso. apply (Hnone i m0); assumption.
      * apply String.eqb_neq in E. split; [discriminate |].
        intros [[m0 [Hm0 Hn]] _]. destruct i as [| i]; simpl in Hm0.
        -- injection Hm0 as ->. congruence.
        -- exfalso. apply (Hnone i m0); assumption.
Qed.

Lemma last_named_None (n : string) (ms : list BaseMetric) :
  last_named n ms = None <-> ~ In n (metric_names ms).
Proof.
  unfold metric_names. induction ms as [| m ms IH]; simpl.
  - tauto.
  - destruct (last_named n ms) as [k |].
    + split; [discriminate |]. intros Hno. exfalso.
      assert (Hin : In n (map name ms)).
      { destruct (in_dec string_dec n (map name ms)) as [Hin | Hout]; [assumption |].
        apply IH in Hout. discriminate. }
      tauto.
    + destruct (String.eqb n (name m)) eqn:E.
      * apply String.eqb_eq in E. split; [discriminate |].
        intros Hno. exfalso. apply Hno. left. congruence.
      * apply String.eqb_neq in E. split; [| reflexivity].
        intros _ [Heq | Hin]; [congruence |].
        apply (proj1 IH eq_refl). assumption.
Qed.

(** The last entry under a name among the entries of the metrics is the entry
    of the last metric of that name. *)
Lemma assoc_last_metrics {B V} (val : B -> V) (n : string)
  (ms : list BaseMetric) (ys : list B) :
  length ms = length ys ->
  assoc_last n (map (fun p => (name (fst p), val (snd p))) (combine ms ys))
  = match last_named n ms with
    | Some i => option_map val (nth_error ys i)
    | None => None
    end.
Proof.
  revert ys. induction ms as [| m ms IH]; intros [| y ys] Hlen;
    simpl in *; try discriminate; [reflexivity |].
  rewrite IH by lia.
  destruct (last_named n ms) as [k |] eqn:Hk.
  - assert (Hlt : k < length ys).
    { apply last_named_Some in Hk as [[mk [Hmk _]] _].
      assert (k < length ms) by (apply nth_error_Some; congruence). lia. }
    destruct (nth_error ys k) eqn:Hy; [simpl; rewrite Hy; reflexivity |].
    apply nth_error_None in Hy. lia.
  - destruct (String.eqb n (name m)); reflexivity.
Qed.

Lemma list_comp_map {A B} (f : A -> Result B) (g : A -> B) (xs : list A) :
  (forall x, In x xs -> f x = Ok (g x)) -> list_comp f xs = Ok (map g xs).
Proof.
  induction xs as [| x xs IH]; intros Hf; simpl; [reflexivity |].
  rewrite (Hf x (or_introl eq_refl)). simpl.
  rewrite IH; [reflexivity |]. intros y Hy. apply Hf. right. assumption.
Qed.

Lemma getitem_nth {A} (xs : list A) (i : nat) (d : A) :
  i < length xs -> getitem xs i = Ok (nth i xs d).
Proof.
  intros Hi. unfold getitem.
  rewrite (nth_error_nth' xs d Hi). reflexivity.
Qed.

Lemma nth_error_combine_Some {A B} (xs : list A) (ys : list B) (i : nat)
  (x : A) (y : B) :
  nth_error xs i = Some x -> nth_error ys i = Some y ->
  nth_error (combine xs ys) i = Some (x, y).
Proof.
  revert ys i. induction xs as [| x0 xs IH]; intros [| y0 ys] [| i];
    simpl; try discriminate.
  - intros Hx Hy. congruence.
  - apply IH.
Qed.

Lemma map_fst_combine {A B} (xs : list A) (ys : list B) :
  length xs = length ys -> map fst (combine xs ys) = xs.
Proof.
  revert ys. induction xs as [| x xs IH]; intros [| y ys] Hlen;
    simpl in *; try discriminate; [reflexivity |].
  rewrite IH; [reflexivity | lia].
Qed.

(** ** The table and the rendering of a valid result *)

Lemma DataFrame_setitem_same_length (df : DataFrame) (k : string)
  (v : list Cell) :
  length v = nrows df ->
  DataFrame_setitem df k v
  = Ok {| nrows := nrows df; columns := dict_set k v (columns df) |}.
Proof.
  intros Hlen. unfold DataFrame_setitem. rewrite Hlen, Nat.eqb_refl.
  destruct (Nat.eqb (nrows df) 0); reflexivity.
Qed.

Lemma fold_left_set_columns {A} (key : A -> string) (val : A -> list Cell)
  (xs : list A) (df : DataFrame) :
  fold_left
    (fun df x => {| nrows := nrows df;
                    columns := dict_set (key x) (val x) (columns df) |})
    xs df
  = {| nrows := nrows df;
       columns := dict_fill (map (fun x => (key x, val x)) xs) (columns df) |}.
Proof.
  revert df. induction xs as [| x xs IH]; intros df; simpl.
  - destruct df; reflexivity.
  - rewrite IH. reflexivity.
Qed.

Section Rendering.

Context {C : Collaborators}.

Lemma counts_agree_combine (r : EvalResult) (m : BaseMetric) (s : list float) :
  counts_agree r -> In (m, s) (combine (metrics r) (scores r)) ->
  length s = Dataset.len (dataset r).
Proof.
  intros [_ Hall] Hin. apply in_combine_r, In_nth_error in Hin as [i Hi].
  apply (Hall i). assumption.
Qed.

(** The table of a valid result: the dataset's columns, then every metric's
    scores stored under the metric's name, in metric order. *)
Lemma to_dataframe_valid (r : EvalResult) :
  counts_agree r ->
  to_dataframe r
  = Ok {| nrows := Dataset.len (dataset r);
          columns := dict_fill (metric_columns r)
                       (columns (Dataset.to_dataframe (dataset r))) |}.
Proof.
  intros Hc. unfold to_dataframe, range.
  rewrite (for_fold_seq_combine _
             (fun df m s => DataFrame_setitem df (name m) (map CFloat s))
             (metrics r) (scores r) (proj1 Hc)).
  - destruct (for_fold_ok_fold_left
                (fun df (p : BaseMetric * list float) =>
                   DataFrame_setitem df (name (fst p)) (map CFloat (snd p)))
                (fun df p =>
                   {| nrows := nrows df;
                      columns := dict_set (name (fst p)) (map CFloat (snd p))
                                   (columns df) |})
                (fun df => nrows df = Dataset.len (dataset r))
                (combine (metrics r) (scores r)))
      with (acc := Dataset.to_dataframe (dataset r)) as [Hrun Hrows].
    + intros df [m s] Hin Hdf. simpl. split; [| assumption].
      apply DataFrame_setitem_same_length.
      rewrite length_map, Hdf. apply (counts_agree_combine m s Hc Hin).
    + reflexivity.
    + rewrite Hrun, fold_left_set_columns. reflexivity.
  - intros df i m s Hm Hs. simpl. unfold getitem. rewrite Hm, Hs. reflexivity.
Qed.

(** The list that [__repr__] renders for a valid result: for every record
    index, in order, the dictionary filled with the entries of that record. *)
Lemma repr_data_valid (r : EvalResult) :
  counts_agree r ->
  repr_data r
  = Ok (map (fun j => dict_fill (row_entries r j) [])
          (range (Dataset.len (dataset r)))).
Proof.
  intros Hc. unfold repr_data. apply list_comp_map.
  intros j Hj. apply in_seq in Hj. unfold dict_comp, range.
  rewrite (for_fold_seq_combine _
             (fun acc m s =>
                let? kv := (let? v := getitem s j in Ok (name m, v)) in
                Ok (dict_set (fst kv) (snd kv) acc))
             (metrics r) (scores r) (proj1 Hc)).
  - destruct (for_fold_ok_fold_left
                (fun acc (p : BaseMetric * list float) =>
                   let? kv := (let? v := getitem (snd p) j in Ok (name (fst p), v)) in
                   Ok (dict_set (fst kv) (snd kv) acc))
                (fun acc p => dict_set (name (fst p)) (nth j (snd p) float_zero) acc)
                (fun _ => True)
                (combine (metrics r) (scores r)))
      with (acc := @nil (string * float)) as [Hrun _].
    + intros acc [m s] Hin _. simpl. split; [| exact I].
      rewrite (getitem_nth s float_zero); [reflexivity |].
      rewrite (counts_agree_combine m s Hc Hin). lia.
    + exact I.
    + rewrite Hrun. f_equal. unfold row_entries.
      apply (fold_left_dict_set_map
               (fun p : BaseMetric * list float => name (fst p))
               (fun p => nth j (snd p) float_zero)).
  - intros acc i m s Hm Hs. simpl. unfold getitem. rewrite Hm, Hs. reflexivity.
Qed.

Lemma row_entries_names (r : EvalResult) (j : nat) :
  counts_agree r -> map fst (row_entries r j) = metric_names (metrics r).
Proof.
  intros [Hlen _]. unfold row_entries, metric_names.
  rewrite map_map. simpl.
  rewrite <- (map_map fst name), (map_fst_combine (metrics r) (scores r)); auto.
Qed.

Lemma metric_columns_names (r : EvalResult) :
  counts_agree r -> map fst (metric_columns r) = metric_names (metrics r).
Proof.
  intros [Hlen _]. unfold metric_columns, metric_names.
  rewrite map_map. simpl.
  rewrite <- (map_map fst name), (map_fst_combine (metrics r) (scores r)); auto.
Qed.

End Rendering.

Section Lookup.

Context {C : Collaborators}.

(** What a name maps to in the dictionary of record [j]: the score of the
    last metric of that name. *)
Lemma dict_get_row (r : EvalResult) (j : nat) (n : string) :
  counts_agree r ->
  dict_get n (dict_fill (row_entries r j) [])
  = match last_named n (metrics r) with
    | Some i => option_map (fun s => nth j s float_zero) (nth_error (scores r) i)
    | None => None
    end.
Proof.
  intros [Hlen _]. rewrite dict_get_fill. unfold row_entries.
  rewrite (assoc_last_metrics (fun s => nth j s float_zero) n
             (metrics r) (scores r) Hlen).
  destruct (last_named n (metrics r)) as [i |]; [| reflexivity].
  destruct (option_map _ _); reflexivity.
Qed.

(** What a name maps to in the table: the scores of the last metric of that
    name, or the dataset's column when no metric has the name. *)
Lemma dict_get_column (r : EvalResult) (n : string) :
  counts_agree r ->
  dict_get n (dict_fill (metric_columns r)
                (columns (Dataset.to_dataframe (dataset r))))
  = match last_named n (metrics r) with
    | Some i => option_map (map CFloat) (nth_error (scores r) i)
    | None => dict_get n (columns (Dataset.to_dataframe (dataset r)))
    end.
Proof.
  intros [Hlen _]. rewrite dict_get_fill. unfold metric_columns.
  rewrite (assoc_last_metrics (map CFloat) n (metrics r) (scores r) Hlen).
  destruct (last_named n (metrics r)) as [i |] eqn:Hi; [| reflexivity].
  apply last_named_Some in Hi as [[m [Hm _]] _].
  assert (Hlt : i < length (scores r))
    by (rewrite <- Hlen; apply nth_error_Some; congruence).
  destruct (nth_error (scores r) i) eqn:Hs; [reflexivity |].
  apply nth_error_None in Hs. lia.
Qed.

(** The score list of the last metric of a name exists and has an entry for
    every record. *)
Lemma last_named_scores (r : EvalResult) (n : string) (i j : nat) :
  counts_agree r -> last_named n (metrics r) = Some i ->
  j < Dataset.len (dataset r) ->
  exists s, nth_error (scores r) i = Some s /\
            nth_error s j = Some (nth j s float_zero).
Proof.
  intros [Hlen Hall] Hi Hj.
  apply last_named_Some in Hi as [[m [Hm _]] _].
  assert (Hlt : i < length (scores r))
    by (rewrite <- Hlen; apply nth_error_Some; congruence).
  destruct (nth_error (scores r) i) as [s |] eqn:Hs;
    [| apply nth_error_None in Hs; lia].
  exists s. split; [reflexivity |].
  apply nth_error_nth'. rewrite (Hall i s Hs). assumption.
Qed.

End Lookup.

(** ** The table *)

(** C8, as stated, fails: a metric called like a dataset field takes that
    field's column, so the table has fewer columns than the dataset fields
    plus the distinct metric names. *)
Lemma to_dataframe_column_count_counterexample :
  validator clash_result = Ok clash_result /\
  exists df,
    to_dataframe clash_result = Ok df /\
    ncols df = 3 /\
    length Dataset.fields
    + distinct_count (metric_names (metrics clash_result)) = 4 /\
    dict_get "question" (columns df) = Some [CFloat one].
Proof.
  split; [reflexivity |].
  eexists. split; [reflexivity |]. repeat split; reflexivity.
Qed.

(** C8, amended.  The table of a valid result has one row per record; its
    columns are the dataset's fields followed by the metric names that are
    new, each once, in order of first occurrence, so their number is the
    number of distinct names among fields and metrics together, and is the
    number of fields plus the number of distinct metric names when no metric
    is called like a field.  The column under a metric name holds the scores
    of the last metric of that name; a name no metric has keeps the
    dataset's column. *)
Theorem to_dataframe_shape `{Collaborators} (r : EvalResult) :
  validator r = Ok r ->
  exists df,
    to_dataframe r = Ok df /\
    nrows df = Dataset.len (dataset r) /\
    column_names df
    = Dataset.fields
      ++ first_occurrences Dataset.fields (metric_names (metrics r)) /\
    ncols df = distinct_count (Dataset.fields ++ metric_names (metrics r)) /\
    ((forall m, In m (metrics r) -> ~ In (name m) Dataset.fields) ->
     ncols df
     = length Dataset.fields + distinct_count (metric_names (metrics r))) /\
    (forall n i, last_named n (metrics r) = Some i ->
       exists s, nth_error (scores r) i = Some s /\
                 dict_get n (columns df) = Some (map CFloat s)) /\
    (forall n, last_named n (metrics r) = None ->
       dict_get n (columns df)
       = dict_get n (columns (Dataset.to_dataframe (dataset r)))).
Proof.
  intros Hv. apply validator_ok in Hv as [_ Hc].
  assert (Hfields : NoDup Dataset.fields).
  { unfold Dataset.fields. repeat constructor; simpl; intuition discriminate. }
  assert (Hnames :
            dict_keys (dict_fill (metric_columns r)
                         (columns (Dataset.to_dataframe (dataset r))))
            = Dataset.fields
              ++ first_occurrences Dataset.fields (metric_names (metrics r))).
  { rewrite dict_keys_fill, (metric_columns_names Hc). reflexivity. }
  assert (Hcount :
            length (dict_fill (metric_columns r)
                      (columns (Dataset.to_dataframe (dataset r))))
            = distinct_count (Dataset.fields ++ metric_names (metrics r))).
  { rewrite <- (first_occurrences_count _ Hfields), <- Hnames.
    unfold dict_keys. rewrite length_map. reflexivity. }
  eexists. split; [apply to_dataframe_valid; assumption |].
  split; [reflexivity |]. split; [exact Hnames |]. split; [exact Hcount |].
  split; [| split].
  - intros Hdis. unfold ncols. cbn [columns]. rewrite Hcount.
    apply distinct_count_disjoint; [assumption |].
    intros x Hx. unfold metric_names in Hx. apply in_map_iff in Hx as [m [<- Hm]].
    apply Hdis. assumption.
  - intros n i Hi. cbn [columns]. rewrite (dict_get_column n Hc), Hi.
    apply last_named_Some in Hi as [[m [Hm _]] _].
    assert (Hlt : i < length (scores r)).
    { rewrite <- (proj1 Hc). apply nth_error_Some. congruence. }
    destruct (nth_error (scores r) i) as [s |] eqn:Hs;
      [| apply nth_error_None in Hs; lia].
    exists s. auto.
  - intros n Hn. cbn [columns]. rewrite (dict_get_column n Hc), Hn. reflexivity.
Qed.

Lemma to_dataframe_shape_witness :
  exists df,
    to_dataframe twin_result = Ok df /\
    nrows df = 2 /\
    column_names df = ["question"; "context"; "response"; "relevancy"; "fixed"] /\
    dict_get "relevancy" (columns df) = Some [CFloat half; CFloat half].
Proof.
  destruct (to_dataframe_shape (r := twin_result) eq_refl)
    as [df [Hdf [Hrows [Hnames [_ [_ [Hlast _]]]]]]].
  exists df. split; [assumption |]. split; [assumption |].
  split; [assumption |].
  destruct (Hlast "relevancy" 2 eq_refl) as [s [Hs Hget]].
  injection Hs as <-. assumption.
Defined.

(** ** The string rendering *)

Lemma nth_error_map_range {A} (f : nat -> A) (n j : nat) :
  nth_error (map f (range n)) j = if Nat.ltb j n then Some (f j) else None.
Proof.
  unfold range. destruct (Nat.ltb j n) eqn:E.
  - apply Nat.ltb_lt in E.
    rewrite (nth_error_nth' _ (f 0)) by (rewrite length_map, length_seq; lia).
    rewrite map_nth, seq_nth by lia. reflexivity.
  - apply Nat.ltb_ge in E. apply nth_error_None.
    rewrite length_map, length_seq. lia.
Qed.

Section Rows.

Context {C : Collaborators}.

Lemma row_keys (r : EvalResult) (j : nat) :
  counts_agree r ->
  dict_keys (dict_fill (row_entries r j) [])
  = first_occurrences [] (metric_names (metrics r)).
Proof.
  intros Hc. rewrite dict_keys_fill, (row_entries_names j Hc). reflexivity.
Qed.

Lemma row_entries_length (r : EvalResult) (j : nat) :
  counts_agree r -> length (row_entries r j) = length (metrics r).
Proof.
  intros [Hlen _]. unfold row_entries.
  rewrite length_map, length_combine, <- Hlen. apply Nat.min_id.
Qed.

(** Entry [i] of record [j] is the name of metric [i] with [scores[i][j]]. *)
Lemma row_entries_nth (r : EvalResult) (j i : nat) (m : BaseMetric)
  (s : list float) :
  counts_agree r -> j < Dataset.len (dataset r) ->
  nth_error (metrics r) i = Some m ->
  nth_error (scores r) i = Some s ->
  exists v, nth_error s j = Some v /\
            nth_error (row_entries r j) i = Some (name m, v).
Proof.
  intros [_ Hall] Hj Hm Hs. exists (nth j s float_zero). split.
  - apply nth_error_nth'. rewrite (Hall i s Hs). assumption.
  - unfold row_entries.
    rewrite nth_error_map, (@nth_error_combine_Some _ _ _ _ _ _ _ Hm Hs). reflexivity.
Qed.

End Rows.

(** C9.  For a valid result, [__repr__] renders a list with one dictionary
    per record index, in order.  The dictionary of record [j] is the one
    obtained by storing, for every metric [i] in metric order,
    [scores[i][j]] under the metric's name: its keys are the metric names,
    and the name of metric [i] is mapped to [scores[i][j]] whenever no later
    metric bears the same name.  [__str__] gives what [__repr__] gives. *)
Theorem repr_rendering `{Collaborators} (r : EvalResult) :
  validator r = Ok r ->
  exists data,
    repr_data r = Ok data /\
    __repr__ r = Ok (list_str data) /\
    __str__ r = __repr__ r /\
    length data = Dataset.len (dataset r) /\
    forall j, j < Dataset.len (dataset r) ->
      exists entries row,
        nth_error data j = Some row /\
        row = dict_fill entries [] /\
        length entries = length (metrics r) /\
        (forall i m s,
           nth_error (metrics r) i = Some m ->
           nth_error (scores r) i = Some s ->
           exists v, nth_error s j = Some v /\
                     nth_error entries i = Some (name m, v)) /\
        (forall k, In k (dict_keys row) <-> In k (metric_names (metrics r))) /\
        forall i m s,
          nth_error (metrics r) i = Some m ->
          nth_error (scores r) i = Some s ->
          (forall i' m', i < i' -> nth_error (metrics r) i' = Some m' ->
                         name m' <> name m) ->
          exists v, nth_error s j = Some v /\ dict_get (name m) row = Some v.
Proof.
  intros Hv. apply validator_ok in Hv as [_ Hc].
  pose proof (repr_data_valid Hc) as Hdata.
  eexists. split; [exact Hdata |].
  split; [unfold __repr__; rewrite Hdata; reflexivity |].
  split; [reflexivity |].
  split; [unfold range; rewrite length_map, length_seq; reflexivity |].
  intros j Hj. exists (row_entries r j). eexists. split.
  - rewrite nth_error_map_range. apply Nat.ltb_lt in Hj. rewrite Hj. reflexivity.
  - split; [reflexivity |].
    split; [apply row_entries_length; assumption |].
    split; [intros i m s Hm Hs; apply (@row_entries_nth _ r j i m s); assumption |].
    split.
    + intros k. rewrite (row_keys j Hc).
      apply (first_occurrences_In [] (metric_names (metrics r)) k).
    + intros i m s Hm Hs Hlater.
      assert (Hlast : last_named (name m) (metrics r) = Some i).
      { apply last_named_Some. split; [eauto | assumption]. }
      destruct (last_named_scores (name m) Hc Hlast Hj) as [s' [Hs' Hv]].
      rewrite Hs in Hs'. injection Hs' as <-.
      exists (nth j s float_zero). split; [assumption |].
      rewrite (dict_get_row j (name m) Hc), Hlast, Hs. reflexivity.
Qed.

Lemma repr_rendering_witness :
  __str__ twin_result = __repr__ twin_result /\
  __repr__ twin_result
  = Ok "[{'relevancy': 0.5, 'fixed': 2.0}, {'relevancy': 0.5, 'fixed': 2.0}]".
Proof.
  destruct (repr_rendering (r := twin_result) eq_refl)
    as [data [Hdata [Hrepr [Hstr _]]]].
  split; [assumption |].
  rewrite Hrepr. vm_compute in Hdata. injection Hdata as <-. reflexivity.
Defined.



(** * Further properties of the orchestrator *)

Unset Implicit Arguments.

(** The first call of a comprehension that raises decides its outcome. *)
Lemma list_comp_raise_at {A B} (f : A -> Result B) (xs : list A) (i : nat)
  (x : A) (e : PyException) :
  nth_error xs i = Some x ->
  f x = Raise e ->
  (forall i' x', i' < i -> nth_error xs i' = Some x' -> exists y, f x' = Ok y) ->
  list_comp f xs = Raise e.
Proof.
  revert i. induction xs as [| x0 xs IH]; intros [| i] Hx He Hbefore;
    simpl in *; try discriminate.
  - injection Hx as ->. rewrite He. reflexivity.
  - destruct (Hbefore 0 x0) as [y0 Hy0]; [lia | reflexivity |].
    rewrite Hy0. simpl.
    rewrite (IH i Hx He); [reflexivity |].
    intros i' x' Hlt Hx'. apply (Hbefore (S i') x'); [lia | assumption].
Qed.

(** A comprehension that raises went through a call that raised. *)
Lemma list_comp_raise_In {A B} (f : A -> Result B) (xs : list A)
  (e : PyException) :
  list_comp f xs = Raise e -> exists x, In x xs /\ f x = Raise e.
Proof.
  induction xs as [| x xs IH]; simpl; [discriminate |].
  destruct (f x) as [y | e'] eqn:Hx; simpl.
  - destruct (list_comp f xs) as [ys | e''] eqn:Hxs; simpl; [discriminate |].
    intros Heq. injection Heq as <-.
    destruct (IH eq_refl) as [x' [Hin Hx']]. exists x'. auto.
  - intros Heq. injection Heq as <-. exists x. auto.
Qed.

Section Failures.

Context {C : Collaborators}.

(** A raw mapping that converts is handled like what it converts to. *)
Lemma evaluate_converted data (x : Data) lo ma (w : World) :
  converted data = Ok x ->
  evaluate data lo ma w = evaluate (DataOf x) lo ma w.
Proof.
  apply evaluate_after_conversion.
Qed.

(** The scoring loop raises what the first failing call raises, metrics
    first, records second. *)
Lemma scoring_loop_raise_at (ms : list BaseMetric) (ds : Dataset.t)
  (i j : nat) (m : BaseMetric) (d : DataNode) (e : PyException) :
  nth_error ms i = Some m ->
  nth_error ds j = Some d ->
  metric_score m d = Raise e ->
  (forall i' m' d', i' < i -> nth_error ms i' = Some m' -> In d' ds ->
                    exists res, metric_score m' d' = Ok res) ->
  (forall j' d', j' < j -> nth_error ds j' = Some d' ->
                 exists res, metric_score m d' = Ok res) ->
  scoring_loop ms ds = Raise e.
Proof.
  intros Hm Hd He Hmetrics Hrecords.
  unfold scoring_loop, Dataset.with_progress.
  apply (list_comp_raise_at _ ms i m e Hm).
  - apply (list_comp_raise_at _ ds j d e Hd).
    + rewrite He. reflexivity.
    + intros j' d' Hlt Hd'. destruct (Hrecords j' d' Hlt Hd') as [res ->].
      simpl. eauto.
  - intros i' m' Hlt Hm'. apply list_comp_total. intros d' Hd'.
    destruct (Hmetrics i' m' d' Hlt Hm' Hd') as [res ->]. simpl. eauto.
Qed.

(** A scoring loop that raises raises what some scoring call raised. *)
Lemma scoring_loop_raise_In (ms : list BaseMetric) (ds : Dataset.t)
  (e : PyException) :
  scoring_loop ms ds = Raise e ->
  exists m d, In m ms /\ In d ds /\ metric_score m d = Raise e.
Proof.
  unfold scoring_loop, Dataset.with_progress. intros Hloop.
  apply list_comp_raise_In in Hloop as [m [Hm Hrow]].
  apply list_comp_raise_In in Hrow as [d [Hd Hcell]].
  exists m, d. split; [assumption |]. split; [assumption |].
  destruct (metric_score m d) as [res | e']; simpl in Hcell;
    [discriminate | congruence].
Qed.

(** The construction at the end of [evaluate] can only fail on the response
    time: the grid of the scoring loop always passes the count checks. *)
Lemma EvalResult_init_grid l ms ds rt g :
  scoring_loop ms ds = Ok g ->
  EvalResult_init l ms ds rt g
  = if float_gt rt float_zero
    then Ok {| llm := l; metrics := ms; dataset := ds; scores := g;
               response_time := rt |}
    else Raise (ValidationError [greater_than_detail "response_time"]).
Proof.
  intros Hg. apply scoring_loop_grid in Hg.
  destruct (float_gt rt float_zero) eqn:Hgt.
  - apply EvalResult_init_ok. split; [reflexivity |].
    split; [assumption |]. apply grid_counts_agree. assumption.
  - unfold EvalResult_init. rewrite Hgt. reflexivity.
Qed.

End Failures.

(** X1.  When a scoring call raises, and every call before it in the order
    of the loop (earlier metrics on all records, then the same metric on
    earlier records) returned, [evaluate] raises that very exception: the
    clock was read once, nothing was logged and no result is built. *)
Theorem evaluate_scoring_error `{Collaborators} (x : Data) (l : BaseLLM)
  (ma : MetricsArg) (w : World) (i j : nat) (m : BaseMetric) (d : DataNode)
  (e : PyException) :
  nth_error (normalized_metrics ma) i = Some m ->
  nth_error (resolved_dataset x) j = Some d ->
  metric_score m d = Raise e ->
  (forall i' m' d', i' < i -> nth_error (normalized_metrics ma) i' = Some m' ->
                    In d' (resolved_dataset x) ->
                    exists res, metric_score m' d' = Ok res) ->
  (forall j' d', j' < j -> nth_error (resolved_dataset x) j' = Some d' ->
                 exists res, metric_score m d' = Ok res) ->
  evaluate (DataOf x) (Some l) ma w
  = (Raise e, {| clock := clock w; ticks := S (ticks w); log := log w |}).
Proof.
  intros Hm Hd He Hmetrics Hrecords.
  rewrite evaluate_unfold.
  rewrite (scoring_loop_raise_at (normalized_metrics ma) (resolved_dataset x)
             i j m d e Hm Hd He Hmetrics Hrecords).
  reflexivity.
Qed.

Lemma evaluate_scoring_error_witness :
  evaluate (DataOf (IsDataset [biden; blank; capital])) (Some gpt)
    (MetricsList [echo_metric "relevancy"; strict_metric "strict"]) world0
  = (Raise (EvaluationError "Error during evaluation."),
     {| clock := clock world0; ticks := 1; log := [] |}).
Proof.
  apply (evaluate_scoring_error
           (IsDataset [biden; blank; capital]) gpt
           (MetricsList [echo_metric "relevancy"; strict_metric "strict"])
           world0 1 1 (strict_metric "strict") blank
           (EvaluationError "Error during evaluation.")
           eq_refl eq_refl eq_refl).
  - intros [| i'] m' d' Hlt Hm' Hd'; [| lia].
    injection Hm' as <-. simpl.
    destruct (context d') as [| c cs]; [| destruct (String.eqb c (response d'))];
      eexists; reflexivity.
  - intros [| j'] d' Hlt Hd'; [| lia].
    injection Hd' as <-. eexists. reflexivity.
Defined.

(** X2.  Whatever a call of [evaluate] raises comes from one of five
    places: the decorator, when an argument is of none of its declared types
    (a [ValidationError], the world untouched); [from_dict], on a mapping
    that the decorator left a [dict] (the world untouched); the default
    client; a scoring call; or the [response_time] check of the result.  The
    count checks of the result never fail inside [evaluate]. *)
Theorem evaluate_failure_modes `{Collaborators} (data : Passed DataArg)
  (lo : Passed (option BaseLLM)) (ma : Passed MetricsArg) (w w' : World)
  (e : PyException) :
  evaluate_call data lo ma w = (Raise e, w') ->
  ((data = Other \/ lo = Other \/ ma = Other) /\
   e = ValidationError (validate_call_report data lo ma) /\ w' = w) \/
  (exists data0 lo0 ma0,
     data = Declared data0 /\ lo = Declared lo0 /\ ma = Declared ma0 /\
     ((exists d, data0 = DataDict d /\ validate_mapping d = None /\
                 from_dict d = Raise e /\ w' = w) \/
      (exists x, converted data0 = Ok x /\ lo0 = None /\
                 default_llm w = (Raise e, w')) \/
      (exists x m d, converted data0 = Ok x /\
                     In m (normalized_metrics ma0) /\
                     In d (resolved_dataset x) /\
                     metric_score m d = Raise e) \/
      (exists x g, converted data0 = Ok x /\
                   scoring_loop (normalized_metrics ma0) (resolved_dataset x)
                   = Ok g /\
                   e = ValidationError [greater_than_detail "response_time"]))).
Proof.
  destruct data as [data0 |];
    [destruct lo as [lo0 |]; [destruct ma as [ma0 |] |] |];
    simpl;
    try (intros Heq; injection Heq as <- <-; left; auto).
  intros Hr. right. exists data0, lo0, ma0.
  split; [reflexivity |]. split; [reflexivity |]. split; [reflexivity |].
  destruct (converted data0) as [x | e0] eqn:Hx.
  - rewrite (evaluate_converted data0 x lo0 ma0 w Hx) in Hr.
    assert (Hrun : forall l w1,
               evaluate (DataOf x) (Some l) ma0 w1 = (Raise e, w') ->
               (exists m d, In m (normalized_metrics ma0) /\
                            In d (resolved_dataset x) /\
                            metric_score m d = Raise e) \/
               (exists g,
                  scoring_loop (normalized_metrics ma0) (resolved_dataset x)
                  = Ok g /\
                  e = ValidationError [greater_than_detail "response_time"])).
    { intros l w1. rewrite evaluate_unfold.
      destruct (scoring_loop _ _) as [g | e1] eqn:Hloop.
      - rewrite (EvalResult_init_grid l _ _ _ g Hloop).
        destruct (float_gt _ _); [discriminate |].
        intros Heq. injection Heq as <- _. right. eauto.
      - intros Heq. injection Heq as <- _. left.
        apply scoring_loop_raise_In. assumption. }
    right. destruct lo0 as [l |].
    + right.
      destruct (Hrun l w Hr) as [[m [d Hmd]] | [g Hg]];
        [left; exists x, m, d | right; exists x, g]; tauto.
    + rewrite evaluate_default_client in Hr.
      destruct (default_llm w) as [[l | e1] w1] eqn:Hllm.
      * right.
        destruct (Hrun l w1 Hr) as [[m [d Hmd]] | [g Hg]];
          [left; exists x, m, d | right; exists x, g]; tauto.
      * injection Hr as <- <-. left. exists x. auto.
  - rewrite (evaluate_conversion_error data0 lo0 ma0 w Hx) in Hr.
    injection Hr as <- <-. left.
    destruct data0 as [d | x]; simpl in Hx; [| discriminate].
    exists d. destruct (validate_mapping d); [discriminate |]. auto.
Qed.

Lemma evaluate_failure_modes_witness :
  exists x g,
    converted (DataOf (IsDataset [biden])) = Ok x /\
    scoring_loop (normalized_metrics (MetricsList [echo_metric "relevancy"]))
      (resolved_dataset x) = Ok g /\
    g = [[half]].
Proof.
  destruct (evaluate_failure_modes
              (Declared (DataOf (IsDataset [biden]))) (Declared (Some gpt))
              (Declared (MetricsList [echo_metric "relevancy"])) frozen
              {| clock := clock frozen; ticks := 2;
                 log := ["Evaluation completed with 1 metrics"] |}
              (ValidationError [greater_than_detail "response_time"])
              eq_refl)
    as [[[Hd | [Hl | Hm]] _]
       | [data0 [lo0 [ma0 [Hd [Hl [Hm Hcase]]]]]]];
    try discriminate.
  injection Hd as <-. injection Hl as <-. injection Hm as <-.
  destruct Hcase
    as [[d [Hdict _]]
       | [[x [_ [Hlo _]]] | [[x [m [d [_ [Hm [Hd Hraise]]]]]] | [x [g Hlast]]]]].
  - discriminate.
  - discriminate.
  - exfalso. destruct Hm as [<- | []]. simpl in Hraise.
    destruct (context d) as [| c cs]; [| destruct (String.eqb c (response d))];
      discriminate.
  - exists x, g. destruct Hlast as [Hx [Hg _]].
    split; [assumption |]. split; [assumption |].
    simpl in Hx. injection Hx as <-. vm_compute in Hg.
    injection Hg as <-. reflexivity.
Defined.

(** X3.  What a returning call of [evaluate] did to the world.  The client
    of the result is the one given, or the one [default_llm] returned; the
    clock was read twice after the client was obtained, and [response_time]
    is the difference of the two readings, so obtaining the default client is
    not timed; one line naming the number of metrics of the result was
    logged, and nothing else changed. *)
Theorem evaluate_effects `{Collaborators} (data : DataArg)
  (lo : option BaseLLM) (ma : MetricsArg) (w w' : World) (r : EvalResult) :
  evaluate data lo ma w = (Ok r, w') ->
  exists l w1,
    match lo with
    | Some l0 => l = l0 /\ w1 = w
    | None => default_llm w = (Ok l, w1)
    end /\
    llm r = l /\
    response_time r = elapsed w1 (ticks w1) /\
    w' = {| clock := clock w1; ticks := S (S (ticks w1));
            log := log w1 ++
                   [("Evaluation completed with "
                     ++ str_of_nat (length (metrics r)) ++ " metrics")%string] |}.
Proof.
  intros Hr.
  destruct (converted data) as [x | e0] eqn:Hx.
  - rewrite (evaluate_converted data x lo ma w Hx) in Hr.
    assert (Hrun : forall l w1,
               evaluate (DataOf x) (Some l) ma w1 = (Ok r, w') ->
               llm r = l /\
               response_time r = elapsed w1 (ticks w1) /\
               w' = {| clock := clock w1; ticks := S (S (ticks w1));
                       log := log w1 ++
                              [("Evaluation completed with "
                                ++ str_of_nat (length (metrics r))
                                ++ " metrics")%string] |}).
    { intros l w1. rewrite evaluate_unfold.
      destruct (scoring_loop _ _) as [g | e1] eqn:Hloop; [| discriminate].
      rewrite (EvalResult_init_grid l _ _ _ g Hloop).
      destruct (float_gt _ _); [| discriminate].
      intros Heq. injection Heq as <- <-. simpl. auto. }
    destruct lo as [l |].
    + exists l, w. split; [auto |]. apply Hrun. assumption.
    + destruct (default_llm w) as [[l | e1] w1] eqn:Hllm.
      * exists l, w1. split; [reflexivity |]. apply Hrun.
        rewrite <- Hr, evaluate_default_client, Hllm. reflexivity.
      * rewrite evaluate_default_client, Hllm in Hr. discriminate.
  - rewrite (evaluate_conversion_error data lo ma w Hx) in Hr. discriminate.
Qed.

Lemma evaluate_effects_witness :
  exists l w1,
    default_llm world0 = (Ok l, w1) /\
    l = "default" /\
    elapsed w1 (ticks w1) = one.
Proof.
  destruct (evaluate_effects (H := collaborators)
              (@DataDict collaborators biden_dict) None MetricsNone world0
              {| clock := clock world0; ticks := 2;
                 log := ["Evaluation completed with 1 metrics"] |}
              {| llm := ("default" : @BaseLLM collaborators); metrics := [echo_metric "response_relevancy"];
                 dataset := [biden]; scores := [[half]]; response_time := one |}
              eq_refl)
    as [l [w1 [Hllm [Hl [Htime _]]]]].
  exists l, w1. split; [assumption |]. split; [symmetry; assumption |].
  rewrite <- Htime. reflexivity.
Defined.

(** X4.  For a dataset or a record and an explicit client, [evaluate]
    returns a result exactly when every scoring call returns and the second
    clock reading is above the first. *)
Theorem evaluate_returns_iff `{Collaborators} (x : Data) (l : BaseLLM)
  (ma : MetricsArg) (w : World) :
  (exists r w', evaluate (DataOf x) (Some l) ma w = (Ok r, w')) <->
  (forall m d, In m (normalized_metrics ma) -> In d (resolved_dataset x) ->
               exists res, metric_score m d = Ok res) /\
  float_gt (elapsed w (ticks w)) float_zero = true.
Proof.
  rewrite evaluate_unfold. split.
  - intros [r [w' Hr]].
    destruct (scoring_loop _ _) as [g | e] eqn:Hloop; [| discriminate].
    rewrite (EvalResult_init_grid l _ _ _ g Hloop) in Hr.
    destruct (float_gt _ _); [| discriminate]. split; [| reflexivity].
    intros m d Hm Hd.
    apply In_nth_error in Hm as [i Hi]. apply In_nth_error in Hd as [j Hj].
    apply scoring_loop_grid in Hloop as [_ Hrows].
    destruct (Hrows i m Hi) as [row [_ [_ Hcells]]].
    destruct (Hcells j d Hj) as [res [Hres _]]. eauto.
  - intros [Hall Hgt].
    destruct (scoring_loop_total _ _ Hall) as [g Hloop].
    rewrite Hloop, (EvalResult_init_grid l _ _ _ g Hloop), Hgt. eauto.
Qed.

Lemma evaluate_returns_iff_witness :
  exists r w',
    evaluate (DataOf (IsDataNode capital)) (Some gpt)
      (MetricsOne (echo_metric "relevancy")) world0
    = (Ok r, w').
Proof.
  apply (proj2 (evaluate_returns_iff
                  (IsDataNode capital) gpt
                  (MetricsOne (echo_metric "relevancy")) world0)).
  split; [| reflexivity].
  intros m d [<- | []] [<- | []]. eexists. reflexivity.
Defined.

(** X5.  A result that [evaluate] returned passes [validator] again, and
    both [to_dataframe] and [__repr__] return on it: tabulating or printing
    the outcome of an evaluation never raises. *)
Theorem evaluate_result_renders `{Collaborators} (data : DataArg)
  (lo : option BaseLLM) (ma : MetricsArg) (w w' : World) (r : EvalResult) :
  evaluate data lo ma w = (Ok r, w') ->
  validator r = Ok r /\
  (exists df, to_dataframe r = Ok df /\ nrows df = Dataset.len (dataset r)) /\
  (exists text, __repr__ r = Ok text /\ __str__ r = Ok text).
Proof.
  intros Hr. apply evaluate_ok_inv in Hr as [x [_ [_ [_ [Hloop _]]]]].
  apply scoring_loop_grid in Hloop.
  assert (Hc : counts_agree r).
  { pose proof (grid_counts_agree (llm r) (response_time r) Hloop) as Hc.
    destruct r. exact Hc. }
  split; [apply validator_ok; auto |]. split.
  - eexists. split; [apply to_dataframe_valid; assumption | reflexivity].
  - unfold __str__, __repr__. rewrite (repr_data_valid Hc). simpl. eauto.
Qed.

Lemma evaluate_result_renders_witness :
  exists text,
    __repr__ {| llm := ("default" : @BaseLLM collaborators); metrics := [echo_metric "response_relevancy"];
                dataset := [biden]; scores := [[half]]; response_time := one |}
    = Ok text.
Proof.
  destruct (evaluate_result_renders (H := collaborators)
              (@DataDict collaborators biden_dict) None MetricsNone world0
              {| clock := clock world0; ticks := 2;
                 log := ["Evaluation completed with 1 metrics"] |}
              {| llm := ("default" : @BaseLLM collaborators); metrics := [echo_metric "response_relevancy"];
                 dataset := [biden]; scores := [[half]]; response_time := one |}
              eq_refl)
    as [_ [_ [text [Hrepr _]]]].
  exists text. exact Hrepr.
Defined.

(** X6.  On an empty dataset no scoring call is made: whatever the metrics
    do, also when they would raise on every record, [evaluate] returns one
    empty score list per metric as soon as the clock advanced. *)
Theorem evaluate_empty_dataset `{Collaborators} (l : BaseLLM)
  (ms : list BaseMetric) (w : World) :
  float_gt (elapsed w (ticks w)) float_zero = true ->
  exists r w',
    evaluate (DataOf (IsDataset [])) (Some l) (MetricsList ms) w = (Ok r, w') /\
    metrics r = ms /\ dataset r = [] /\ scores r = map (fun _ => []) ms.
Proof.
  intros Hgt. rewrite evaluate_unfold. simpl.
  assert (Hloop : scoring_loop ms [] = Ok (map (fun _ => []) ms)).
  { unfold scoring_loop, Dataset.with_progress.
    apply list_comp_map. reflexivity. }
  rewrite Hloop, (EvalResult_init_grid l _ _ _ _ Hloop), Hgt.
  eexists. eexists. split; [reflexivity |]. simpl. auto.
Qed.

Lemma evaluate_empty_dataset_witness :
  exists r w',
    evaluate (DataOf (IsDataset [])) (Some gpt)
      (MetricsList [strict_metric "strict"; echo_metric "relevancy"]) world0
    = (Ok r, w') /\
    scores r = [[]; []].
Proof.
  destruct (evaluate_empty_dataset
              gpt [strict_metric "strict"; echo_metric "relevancy"] world0
              eq_refl)
    as [r [w' [Hr [_ [_ Hscores]]]]].
  exists r, w'. split; [assumption | exact Hscores].
Defined.

(** * Further properties of the result object *)

Lemma dict_set_fresh {V} (k : string) (v : V) (d : PyDict V) :
  ~ In k (dict_keys d) -> dict_set k v d = d ++ [(k, v)].
Proof.
  unfold dict_keys. induction d as [| [k0 v0] d IH]; simpl; intros Hk.
  - reflexivity.
  - destruct (String.eqb k k0) eqn:E.
    + apply String.eqb_eq in E. exfalso. apply Hk. left. congruence.
    + rewrite IH; [reflexivity |]. intros Hin. apply Hk. right. assumption.
Qed.

(** Entries with fresh, pairwise distinct keys are appended as they are. *)
Lemma dict_fill_fresh {V} (kvs : list (string * V)) (acc : PyDict V) :
  NoDup (map fst kvs) ->
  (forall k, In k (map fst kvs) -> ~ In k (dict_keys acc)) ->
  dict_fill kvs acc = acc ++ kvs.
Proof.
  revert acc. unfold dict_fill.
  induction kvs as [| [k v] kvs IH]; intros acc Hnd Hfresh; simpl.
  - symmetry. apply app_nil_r.
  - inversion Hnd as [| ? ? Hk Hrest]; subst.
    rewrite dict_set_fresh by (apply Hfresh; left; reflexivity).
    rewrite IH; [rewrite <- app_assoc; reflexivity | assumption |].
    intros k' Hk' Hin. unfold dict_keys in Hin.
    rewrite map_app, in_app_iff in Hin. simpl in Hin.
    destruct Hin as [Hin | [<- | []]].
    + apply (Hfresh k'); [right; assumption | exact Hin].
    + contradiction.
Qed.

(** Storing entries keeps a property that all values have. *)
Lemma dict_set_Forall {V} (P : V -> Prop) (k : string) (v : V) (d : PyDict V) :
  P v -> Forall (fun c => P (snd c)) d ->
  Forall (fun c => P (snd c)) (dict_set k v d).
Proof.
  intros Hv. induction d as [| [k0 v0] d IH]; simpl; intros Hd.
  - repeat constructor. assumption.
  - inversion Hd as [| ? ? H0 Hrest]; subst.
    destruct (String.eqb k k0); constructor; auto.
Qed.

Lemma dict_fill_Forall {V} (P : V -> Prop) (kvs : list (string * V))
  (acc : PyDict V) :
  Forall (fun c => P (snd c)) kvs -> Forall (fun c => P (snd c)) acc ->
  Forall (fun c => P (snd c)) (dict_fill kvs acc).
Proof.
  revert acc. unfold dict_fill.
  induction kvs as [| [k v] kvs IH]; intros acc Hkvs Hacc; simpl.
  - assumption.
  - inversion Hkvs as [| ? ? Hv Hrest]; subst.
    apply IH; [assumption |]. apply dict_set_Forall; assumption.
Qed.

(** A loop that raises went through a step that raised. *)
Lemma for_fold_raise_In {A St} (body : St -> A -> Result St) (xs : list A)
  (acc : St) (e : PyException) :
  for_fold body xs acc = Raise e ->
  exists acc' x, In x xs /\ body acc' x = Raise e.
Proof.
  revert acc. induction xs as [| x xs IH]; intros acc; simpl; [discriminate |].
  destruct (body acc x) as [acc1 | e'] eqn:Hx; simpl.
  - intros Hrest. destruct (IH acc1 Hrest) as [acc' [x' [Hin Hx']]].
    exists acc', x'. auto.
  - intros Heq. injection Heq as <-. exists acc, x. auto.
Qed.

(** A loop that keeps an invariant under which its steps can only raise [e],
    and one of whose steps always does, raises [e]. *)
Lemma for_fold_raise_always {A St} (P : St -> Prop)
  (body : St -> A -> Result St) (xs : list A) (e : PyException) (x0 : A) :
  In x0 xs ->
  (forall acc, P acc -> body acc x0 = Raise e) ->
  (forall acc x, In x xs -> P acc ->
     body acc x = Raise e \/ exists acc', body acc x = Ok acc' /\ P acc') ->
  forall acc, P acc -> for_fold body xs acc = Raise e.
Proof.
  intros Hin Hx0 Hstep. induction xs as [| x xs IH]; intros acc Hacc; simpl.
  - destruct Hin.
  - destruct (body acc x) as [acc1 | e'] eqn:Hx; simpl.
    + destruct (Hstep acc x (or_introl eq_refl) Hacc) as [Hr | [acc2 [Hok Hacc2]]];
        [congruence |].
      assert (acc2 = acc1) by congruence. subst acc2.
      destruct Hin as [-> | Hin];
        [rewrite (Hx0 acc Hacc) in Hx; discriminate |].
      apply IH; [assumption | | assumption].
      intros acc' x' Hx' Hacc'. apply Hstep; [right |]; assumption.
    + destruct (Hstep acc x (or_introl eq_refl) Hacc) as [Hr | [acc2 [Hok _]]];
        congruence.
Qed.

Lemma for_fold_app {A St} (body : St -> A -> Result St) (xs ys : list A)
  (acc : St) :
  for_fold body (xs ++ ys) acc
  = match for_fold body xs acc with
    | Ok acc' => for_fold body ys acc'
    | Raise e => Raise e
    end.
Proof.
  revert acc. induction xs as [| x xs IH]; intros acc; simpl; [reflexivity |].
  destruct (body acc x) as [acc1 | e]; simpl; [apply IH | reflexivity].
Qed.

Lemma map_const_range {A} (a : A) (n : nat) :
  map (fun _ => a) (range n) = repeat a n.
Proof.
  unfold range. generalize 0 as start.
  induction n as [| n IH]; intros start; simpl; [reflexivity |].
  rewrite IH. reflexivity.
Qed.

Lemma getitem_raise {A} (xs : list A) (i : nat) (e : PyException) :
  getitem xs i = Raise e -> e = IndexError "list index out of range".
Proof.
  unfold getitem. destruct (nth_error xs i); [discriminate |].
  intros Heq. injection Heq as <-. reflexivity.
Qed.

Lemma getitem_beyond {A} (xs : list A) (i : nat) :
  length xs <= i -> getitem xs i = Raise (IndexError "list index out of range").
Proof.
  intros Hlen. unfold getitem.
  rewrite (proj2 (nth_error_None xs i) Hlen). reflexivity.
Qed.

(** X7.  In the table of a valid result every column, of the dataset or of
    a metric, has exactly one cell per row. *)
Theorem to_dataframe_columns_full `{Collaborators} (r : EvalResult) :
  validator r = Ok r ->
  exists df,
    to_dataframe r = Ok df /\
    Forall (fun c => length (snd c) = nrows df) (columns df).
Proof.
  intros Hv. apply validator_ok in Hv as [_ Hc].
  eexists. split; [apply to_dataframe_valid; assumption |].
  cbn [columns nrows].
  apply (dict_fill_Forall (fun v => length v = Dataset.len (dataset r))).
  - unfold metric_columns. apply Forall_forall. intros c Hin.
    apply in_map_iff in Hin as [[m s] [<- Hms]]. simpl.
    rewrite length_map. apply (counts_agree_combine m s Hc Hms).
  - unfold Dataset.to_dataframe, Dataset.len. simpl.
    repeat constructor; simpl; apply length_map.
Qed.

Lemma to_dataframe_columns_full_witness :
  exists df,
    to_dataframe twin_result = Ok df /\
    Forall (fun c => length (snd c) = 2) (columns df).
Proof.
  destruct (to_dataframe_columns_full twin_result eq_refl) as [df [Hdf Hall]].
  exists df. split; [assumption |].
  pose proof Hdf as Heq. vm_compute in Heq. injection Heq as Heq.
  rewrite <- Heq in Hall |- *. exact Hall.
Defined.

(** X8.  When the metrics of a valid result have pairwise distinct names,
    none of them the name of a dataset field, the table is the dataset's
    table followed by one column per metric in metric order: column
    [3 + i] bears the name of metric [i] and holds [scores[i]]. *)
Theorem to_dataframe_distinct_names `{Collaborators} (r : EvalResult) :
  validator r = Ok r ->
  NoDup (metric_names (metrics r)) ->
  (forall m, In m (metrics r) -> ~ In (name m) Dataset.fields) ->
  exists df,
    to_dataframe r = Ok df /\
    firstn (length Dataset.fields) (columns df)
    = columns (Dataset.to_dataframe (dataset r)) /\
    ncols df = length Dataset.fields + length (metrics r) /\
    forall i m s,
      nth_error (metrics r) i = Some m ->
      nth_error (scores r) i = Some s ->
      nth_error (columns df) (length Dataset.fields + i)
      = Some (name m, map CFloat s).
Proof.
  intros Hv Hnd Hfresh. apply validator_ok in Hv as [_ Hc].
  assert (Hcols :
            dict_fill (metric_columns r)
              (columns (Dataset.to_dataframe (dataset r)))
            = columns (Dataset.to_dataframe (dataset r)) ++ metric_columns r).
  { apply dict_fill_fresh.
    - rewrite (metric_columns_names Hc). assumption.
    - rewrite (metric_columns_names Hc). intros k Hk.
      unfold metric_names in Hk. apply in_map_iff in Hk as [m [<- Hm]].
      apply (Hfresh m Hm). }
  eexists. split; [apply to_dataframe_valid; assumption |].
  unfold ncols. cbn [columns]. rewrite Hcols.
  split; [reflexivity |]. split.
  - rewrite length_app. unfold metric_columns.
    rewrite length_map, length_combine, <- (proj1 Hc), Nat.min_id. reflexivity.
  - intros i m s Hm Hs.
    rewrite nth_error_app2 by (simpl; lia).
    replace (length Dataset.fields + i
             - length (columns (Dataset.to_dataframe (dataset r)))) with i
      by (simpl; lia).
    unfold metric_columns.
    rewrite nth_error_map, (@nth_error_combine_Some _ _ _ _ _ _ _ Hm Hs).
    reflexivity.
Qed.

Lemma to_dataframe_distinct_names_witness :
  exists df,
    to_dataframe plain_result = Ok df /\
    nth_error (columns df) 3 = Some ("relevancy", [CFloat one; CFloat half]) /\
    nth_error (columns df) 4 = Some ("fixed", [CFloat two; CFloat two]).
Proof.
  destruct (to_dataframe_distinct_names plain_result eq_refl)
    as [df [Hdf [_ [_ Hcol]]]].
  - repeat constructor; simpl; intuition discriminate.
  - intros m [<- | [<- | []]]; simpl; intuition discriminate.
  - exists df. split; [assumption |]. split.
    + apply (Hcol 0 (const_metric "relevancy" one) [one; half]); reflexivity.
    + apply (Hcol 1 (const_metric "fixed" two) [two; two]); reflexivity.
Defined.

(** X9.  When the metrics of a valid result have pairwise distinct names,
    the dictionary that [__repr__] renders for record [j] has exactly one
    entry per metric, in metric order: entry [i] is the name of metric [i]
    with [scores[i][j]]. *)
Theorem repr_distinct_names `{Collaborators} (r : EvalResult) :
  validator r = Ok r ->
  NoDup (metric_names (metrics r)) ->
  exists data,
    repr_data r = Ok data /\
    forall j, j < Dataset.len (dataset r) ->
      exists row,
        nth_error data j = Some row /\
        length row = length (metrics r) /\
        forall i m s,
          nth_error (metrics r) i = Some m ->
          nth_error (scores r) i = Some s ->
          exists v, nth_error s j = Some v /\
                    nth_error row i = Some (name m, v).
Proof.
  intros Hv Hnd. apply validator_ok in Hv as [_ Hc].
  eexists. split; [apply repr_data_valid; assumption |].
  intros j Hj. exists (row_entries r j).
  assert (Hrow : dict_fill (row_entries r j) [] = row_entries r j).
  { apply (dict_fill_fresh (row_entries r j) []).
    - rewrite (row_entries_names j Hc). assumption.
    - intros k _ []. }
  split.
  - rewrite nth_error_map_range. apply Nat.ltb_lt in Hj. rewrite Hj, Hrow.
    reflexivity.
  - split; [apply row_entries_length; assumption |].
    intros i m s Hm Hs. apply (@row_entries_nth _ r j i m s); assumption.
Qed.

Lemma repr_distinct_names_witness :
  exists data,
    repr_data plain_result = Ok data /\
    nth_error data 1 = Some [("relevancy", half); ("fixed", two)].
Proof.
  destruct (repr_distinct_names plain_result eq_refl) as [data [Hdata Hrows]].
  - repeat constructor; simpl; intuition discriminate.
  - exists data. split; [assumption |].
    pose proof Hdata as Heq. vm_compute in Heq. injection Heq as Heq.
    rewrite <- Heq. reflexivity.
Defined.

(** X10.  Degenerate objects, valid or not.  Without records the rendering
    is the empty list; without metrics the table is the dataset's table, no
    score list being read, and the rendering is one empty dictionary per
    record. *)
Theorem rendering_degenerate `{Collaborators} (r : EvalResult) :
  (dataset r = [] -> __repr__ r = Ok "[]"%string) /\
  (metrics r = [] ->
   to_dataframe r = Ok (Dataset.to_dataframe (dataset r)) /\
   __repr__ r = Ok (list_str (repeat [] (Dataset.len (dataset r))))).
Proof.
  split.
  - intros Hds. unfold __repr__, repr_data. rewrite Hds. reflexivity.
  - intros Hms. split.
    + unfold to_dataframe. rewrite Hms. reflexivity.
    + unfold __repr__, repr_data. rewrite Hms. simpl.
      rewrite (list_comp_map _ (fun _ => @nil (string * float)))
        by reflexivity.
      simpl. rewrite map_const_range. reflexivity.
Qed.

Lemma rendering_degenerate_witness :
  __repr__ {| llm := gpt; metrics := []; dataset := [biden; capital];
              scores := [[one]]; response_time := one |}
  = Ok "[{}, {}]"%string.
Proof.
  apply (proj2 (proj2 (rendering_degenerate
                         {| llm := gpt; metrics := [];
                            dataset := [biden; capital];
                            scores := [[one]]; response_time := one |})
                  eq_refl)).
Defined.

Section Stale.

Context {C : Collaborators}.

(** The step of the dictionary comprehension of [__repr__] raises nothing
    but [IndexError]. *)
Lemma repr_step_raise (r : EvalResult) (j k : nat) (acc : PyDict float)
  (e : PyException) :
  (let? kv := (let? m := getitem (metrics r) k in
               let? s := getitem (scores r) k in
               let? v := getitem s j in
               Ok (name m, v)) in
   Ok (dict_set (fst kv) (snd kv) acc)) = Raise e ->
  e = IndexError "list index out of range".
Proof.
  destruct (getitem (metrics r) k) as [m | e1] eqn:Hm; simpl;
    [| intros Heq; injection Heq as <-; apply (getitem_raise _ _ _ Hm)].
  destruct (getitem (scores r) k) as [s | e2] eqn:Hs; simpl;
    [| intros Heq; injection Heq as <-; apply (getitem_raise _ _ _ Hs)].
  destruct (getitem s j) as [v | e3] eqn:Hv; simpl;
    [discriminate | intros Heq; injection Heq as <-; apply (getitem_raise _ _ _ Hv)].
Qed.

End Stale.

(** X11.  Rendering does not validate again.  [__repr__] raises nothing but
    [IndexError]; and on an object with fewer score lists than metrics and at
    least one record, as a result can become when it is changed after its
    construction, it does raise [IndexError]. *)
Theorem repr_errors `{Collaborators} (r : EvalResult) :
  (forall e, __repr__ r = Raise e -> e = IndexError "list index out of range") /\
  (length (scores r) < length (metrics r) -> dataset r <> [] ->
   __repr__ r = Raise (IndexError "list index out of range")).
Proof.
  split.
  - intros e. unfold __repr__.
    destruct (repr_data r) as [data | e'] eqn:Hdata; simpl; [discriminate |].
    intros Heq. injection Heq as <-. unfold repr_data in Hdata.
    apply list_comp_raise_In in Hdata as [j [_ Hrow]].
    unfold dict_comp in Hrow.
    apply for_fold_raise_In in Hrow as [acc [k [_ Hstep]]].
    apply (repr_step_raise r j k acc e' Hstep).
  - intros Hshort Hds. unfold __repr__, repr_data, range.
    destruct (dataset r) as [| d ds] eqn:Hdataset; [contradiction |].
    simpl Dataset.len. simpl seq. simpl list_comp.
    unfold dict_comp at 1.
    rewrite (for_fold_raise_always (fun _ => True) _
               (range (length (metrics r)))
               (IndexError "list index out of range") (length (scores r))).
    + reflexivity.
    + apply in_seq. lia.
    + intros acc _.
      destruct (nth_error (metrics r) (length (scores r))) as [m |] eqn:Hm;
        [| apply nth_error_None in Hm; lia].
      unfold getitem at 1. rewrite Hm. simpl.
      rewrite (getitem_beyond (scores r) (length (scores r)) (Nat.le_refl _)).
      reflexivity.
    + intros acc k _ _.
      match goal with
      | |- ?step = _ \/ _ => destruct step as [acc' | e] eqn:Hstep
      end.
      * right. exists acc'. auto.
      * left. f_equal. apply (repr_step_raise r 0 k acc e Hstep).
    + exact I.
Qed.

Lemma repr_errors_witness :
  __repr__ stale_result = Raise (IndexError "list index out of range").
Proof.
  apply (proj2 (repr_errors stale_result)).
  - simpl. lia.
  - discriminate.
Defined.

(** X12.  [to_dataframe] does not validate again either: on an object with
    fewer score lists than metrics, each of the dataset's length, it stores
    the score lists there are and then raises [IndexError]. *)
Theorem to_dataframe_missing_scores `{Collaborators} (r : EvalResult) :
  length (scores r) < length (metrics r) ->
  (forall s, In s (scores r) -> length s = Dataset.len (dataset r)) ->
  to_dataframe r = Raise (IndexError "list index out of range").
Proof.
  intros Hshort Hall. unfold to_dataframe.
  apply (for_fold_raise_always
           (fun df => nrows df = Dataset.len (dataset r)) _
           (range (length (metrics r)))
           (IndexError "list index out of range") (length (scores r))).
  - apply in_seq. lia.
  - intros df _.
    destruct (nth_error (metrics r) (length (scores r))) as [m |] eqn:Hm;
      [| apply nth_error_None in Hm; lia].
    unfold getitem at 1. rewrite Hm. simpl.
    rewrite (getitem_beyond (scores r) (length (scores r)) (Nat.le_refl _)).
    reflexivity.
  - intros df i Hi Hdf. apply in_seq in Hi.
    destruct (nth_error (metrics r) i) as [m |] eqn:Hm;
      [| apply nth_error_None in Hm; lia].
    unfold getitem. rewrite Hm. cbn [rbind].
    destruct (nth_error (scores r) i) as [s |] eqn:Hs; cbn [rbind].
    + right. rewrite DataFrame_setitem_same_length.
      * eexists. split; [reflexivity | exact Hdf].
      * rewrite length_map, Hdf. apply Hall.
        apply (nth_error_In _ _ Hs).
    + left. reflexivity.
  - reflexivity.
Qed.

Lemma to_dataframe_missing_scores_witness :
  to_dataframe stale_result = Raise (IndexError "list index out of range").
Proof.
  apply (to_dataframe_missing_scores stale_result).
  - simpl. lia.
  - intros s [<- | []]. reflexivity.
Defined.
